(** * GoogLeNet notebook: the Inception block and the assembled network

    A shallow embedding of the code cells of
    [chapter_convolutional-modern/googlenet.ipynb].

    The notebook owns very little code: one block class ([Inception]), five
    [nn.Sequential] groups, a loop that prints shapes and a cell that starts
    training.  Everything else is a call into the deep-learning framework.
    The embedding keeps that split visible: notebook code is written as a
    program that issues framework commands ([cmd]); what a command does is
    given by a handler, which the theorems either quantify over or
    instantiate with the framework's documented shape rules. *)

From Stdlib Require Import List String Arith PeanoNat Lia Bool QArith.
Import ListNotations.
Close Scope Q_scope.
Local Open Scope string_scope.
Local Open Scope list_scope.
Local Open Scope nat_scope.

Set Implicit Arguments.

(** ** Layer objects *)

(** Python objects have an identity; two layers built with the same arguments
    still own different weights.  [ident] names an object by the place where
    the notebook creates it, e.g. ["b3[0].p2_1"]. *)
Definition ident := string.

(** [nn.Conv2D(channels, kernel_size, strides=1, padding=0, activation=None)].
    Kernel, stride and padding are square in every use of the notebook. *)
Record Conv2D : Type := mkConv2D {
  conv_self : ident;
  channels : nat;
  kernel_size : nat;
  strides : nat;
  padding : nat;
  activation : option string
}.

(** [nn.MaxPool2D(pool_size, strides, padding)]. *)
Record MaxPool2D : Type := mkMaxPool2D {
  pool_self : ident;
  pool_size : nat;
  pool_strides : nat;
  pool_padding : nat
}.

(** The pre-built layers the notebook instantiates. *)
Inductive Layer : Type :=
| LConv2D (c : Conv2D)
| LMaxPool2D (p : MaxPool2D)
| LGlobalAvgPool2D (self : ident)
| LDense (self : ident) (units : nat).

(** [nn.Conv2D(channels, kernel_size=k, activation='relu')]: stride 1, no
    padding. *)
Definition nn_Conv2D_relu (self : ident) (c k : nat) : Layer :=
  LConv2D {| conv_self := self; channels := c; kernel_size := k;
             strides := 1; padding := 0; activation := Some "relu"%string |}.

(** [nn.Conv2D(channels, kernel_size=k, padding=p, activation='relu')]. *)
Definition nn_Conv2D_pad_relu (self : ident) (c k p : nat) : Layer :=
  LConv2D {| conv_self := self; channels := c; kernel_size := k;
             strides := 1; padding := p; activation := Some "relu"%string |}.

(** [nn.Conv2D(channels, kernel_size=k, strides=s, padding=p,
    activation='relu')]. *)
Definition nn_Conv2D_full (self : ident) (c k s p : nat) : Layer :=
  LConv2D {| conv_self := self; channels := c; kernel_size := k;
             strides := s; padding := p; activation := Some "relu"%string |}.

(** [nn.MaxPool2D(pool_size=k, strides=s, padding=p)]. *)
Definition nn_MaxPool2D (self : ident) (k s p : nat) : Layer :=
  LMaxPool2D {| pool_self := self; pool_size := k; pool_strides := s;
                pool_padding := p |}.

Definition attr (self : ident) (field : string) : ident :=
  (self ++ "." ++ field)%string.

(** ** class Inception(nn.Block) *)

(** The attributes [__init__] sets on [self]. *)
Record Inception : Type := mkInception {
  inception_self : ident;
  p1_1 : Layer;
  p2_1 : Layer;
  p2_2 : Layer;
  p3_1 : Layer;
  p3_2 : Layer;
  p4_1 : Layer;
  p4_2 : Layer
}.

(** [Inception.__init__(self, c1, c2, c3, c4, **kwargs)].  [c2] and [c3] are
    pairs; [c2[0]] is [fst c2] and [c2[1]] is [snd c2].  The keyword
    arguments go to [nn.Block.__init__] untouched and no call in the notebook
    passes any, so they are left out. *)
Definition Inception_init (self : ident) (c1 : nat) (c2 c3 : nat * nat)
    (c4 : nat) : Inception :=
  {| inception_self := self;
     (* Path 1 is a single 1 x 1 convolutional layer *)
     p1_1 := nn_Conv2D_relu (attr self "p1_1") c1 1;
     (* Path 2 is a 1 x 1 convolutional layer followed by a 3 x 3 one *)
     p2_1 := nn_Conv2D_relu (attr self "p2_1") (fst c2) 1;
     p2_2 := nn_Conv2D_pad_relu (attr self "p2_2") (snd c2) 3 1;
     (* Path 3 is a 1 x 1 convolutional layer followed by a 5 x 5 one *)
     p3_1 := nn_Conv2D_relu (attr self "p3_1") (fst c3) 1;
     p3_2 := nn_Conv2D_pad_relu (attr self "p3_2") (snd c3) 5 2;
     (* Path 4 is a 3 x 3 maximum pooling layer followed by a 1 x 1
        convolutional layer *)
     p4_1 := nn_MaxPool2D (attr self "p4_1") 3 1 1;
     p4_2 := nn_Conv2D_relu (attr self "p4_2") c4 1 |}.

(** ** Blocks and nn.Sequential *)

#[warnings="-register-all"]
Inductive Block : Type :=
| Prim (l : Layer)
| Incep (i : Inception)
| Sequential (self : ident) (children : list Block).

(** [nn.Sequential()] followed by [.add(...)]. *)
Definition nn_Sequential (self : ident) : Block := Sequential self [].

Definition add (b : Block) (blocks : list Block) : Block :=
  match b with
  | Sequential self children => Sequential self (children ++ blocks)
  | _ => b
  end.

Definition children_of (b : Block) : list Block :=
  match b with
  | Sequential _ children => children
  | _ => []
  end.

Definition item (self : ident) (i : string) : ident :=
  (self ++ "[" ++ i ++ "]")%string.

(** ** The network of the notebook *)

Definition b1 : Block :=
  add (nn_Sequential "b1")
    [ Prim (nn_Conv2D_full (item "b1" "0") 64 7 2 3);
      Prim (nn_MaxPool2D (item "b1" "1") 3 2 1) ].

Definition b2 : Block :=
  add (nn_Sequential "b2")
    [ Prim (nn_Conv2D_relu (item "b2" "0") 64 1);
      Prim (nn_Conv2D_pad_relu (item "b2" "1") 192 3 1);
      Prim (nn_MaxPool2D (item "b2" "2") 3 2 1) ].

Definition b3 : Block :=
  add (nn_Sequential "b3")
    [ Incep (Inception_init (item "b3" "0") 64 (96, 128) (16, 32) 32);
      Incep (Inception_init (item "b3" "1") 128 (128, 192) (32, 96) 64);
      Prim (nn_MaxPool2D (item "b3" "2") 3 2 1) ].

Definition b4 : Block :=
  add (nn_Sequential "b4")
    [ Incep (Inception_init (item "b4" "0") 192 (96, 208) (16, 48) 64);
      Incep (Inception_init (item "b4" "1") 160 (112, 224) (24, 64) 64);
      Incep (Inception_init (item "b4" "2") 128 (128, 256) (24, 64) 64);
      Incep (Inception_init (item "b4" "3") 112 (144, 288) (32, 64) 64);
      Incep (Inception_init (item "b4" "4") 256 (160, 320) (32, 128) 128);
      Prim (nn_MaxPool2D (item "b4" "5") 3 2 1) ].

Definition b5 : Block :=
  add (nn_Sequential "b5")
    [ Incep (Inception_init (item "b5" "0") 256 (160, 320) (32, 128) 128);
      Incep (Inception_init (item "b5" "1") 384 (192, 384) (48, 128) 128);
      Prim (LGlobalAvgPool2D (item "b5" "2")) ].

Definition net : Block :=
  add (nn_Sequential "net")
    [ b1; b2; b3; b4; b5; Prim (LDense (item "net" "5") 10) ].

(** The Inception instances reachable from a block, in order. *)
Fixpoint inceptions (b : Block) : list Inception :=
  match b with
  | Prim _ => []
  | Incep i => [i]
  | Sequential _ children => flat_map inceptions children
  end.

(** ** Framework commands and notebook programs *)

Section Programs.

(** [T] is the framework's tensor type ([NDArray]); [Obj] stands for the
    other framework objects the notebook only passes around (device
    contexts, initialisers, parameter dictionaries, trainers, data
    iterators). *)
Context {T Obj : Type}.

Inductive cmd : Type :=
| LayerCall (l : Layer) (x : T)
| NdConcat (xs : list T) (dim : nat)
| RandomUniform (shape : list nat)
| Initialize (b : Block) (force_reinit : bool) (ctx init : option Obj)
| AttrName (b : Block)
| AttrShape (x : T)
| Print (name sep : string) (shape : list nat)
| TryGpu
| InitXavier
| CollectParams (b : Block)
| NewTrainer (params : Obj) (optimizer : string)
             (optimizer_params : list (string * Q))
| LoadDataFashionMnist (batch_size : nat) (resize : option nat)
| TrainCh5 (b : Block) (train_iter test_iter : Obj) (batch_size : nat)
           (trainer ctx : Obj) (num_epochs : nat).

(** What a command hands back when it does not raise. *)
Definition resp (c : cmd) : Type :=
  match c with
  | LayerCall _ _ | NdConcat _ _ | RandomUniform _ => T
  | Initialize _ _ _ _ | Print _ _ _ | TrainCh5 _ _ _ _ _ _ _ => unit
  | AttrName _ => string
  | AttrShape _ => list nat
  | TryGpu | InitXavier | CollectParams _ | NewTrainer _ _ _ => Obj
  | LoadDataFashionMnist _ _ => (Obj * Obj)%type
  end.

(** A program over the framework, as Python lets one write it: return a
    value; issue a command and go on with its answer; or run a body under
    [try: ... except: ...], going on with the value of the body or, when the
    body raised, with that of the handler.  The notebook uses the first two
    only. *)
Inductive prog (A : Type) : Type :=
| Ret (a : A)
| Do (c : cmd) (k : resp c -> prog A)
| TryExcept (X : Type) (body handler : prog X) (k : X -> prog A).

Fixpoint bind {A B : Type} (m : prog A) (f : A -> prog B) : prog B :=
  match m with
  | Ret a => f a
  | Do c k => Do c (fun r => bind (k r) f)
  | TryExcept body handler k =>
      TryExcept body handler (fun x => bind (k x) f)
  end.

End Programs.

Arguments cmd : clear implicits.
Arguments prog : clear implicits.
Arguments Ret {T Obj A} a.
Arguments Do {T Obj A} c k.
Arguments TryExcept {T Obj A X} body handler k.
Arguments LayerCall {T Obj} l x.
Arguments NdConcat {T Obj} xs dim.
Arguments RandomUniform {T Obj} shape.
Arguments Initialize {T Obj} b force_reinit ctx init.
Arguments AttrName {T Obj} b.
Arguments AttrShape {T Obj} x.
Arguments Print {T Obj} name sep shape.
Arguments TryGpu {T Obj}.
Arguments InitXavier {T Obj}.
Arguments CollectParams {T Obj} b.
Arguments NewTrainer {T Obj} params optimizer optimizer_params.
Arguments LoadDataFashionMnist {T Obj} batch_size resize.
Arguments TrainCh5 {T Obj} b train_iter test_iter batch_size trainer ctx
  num_epochs.

Declare Scope prog_scope.
Delimit Scope prog_scope with prog.
Notation "x <- m ;; k" := (bind m (fun x => k))
(at level 61, m at next level, right associativity) : prog_scope.
Notation "m ;;; k" := (bind m (fun _ => k))
(at level 61, right associativity) : prog_scope.
Local Open Scope prog_scope.

Section Notebook.

Context {T Obj : Type}.
#[local] Abbreviation prog := (prog T Obj).

(** One framework command as a program. *)
Definition call_layer (l : Layer) (x : T) : prog T :=
  Do (LayerCall l x) (fun y => Ret y).
Definition nd_concat (xs : list T) (dim : nat) : prog T :=
  Do (NdConcat xs dim) (fun y => Ret y).

(** [Inception.forward(self, x)]. *)
Definition forward_p1 (self : Inception) (x : T) : prog T :=
  call_layer (p1_1 self) x.
Definition forward_p2 (self : Inception) (x : T) : prog T :=
  t <- call_layer (p2_1 self) x ;; call_layer (p2_2 self) t.
Definition forward_p3 (self : Inception) (x : T) : prog T :=
  t <- call_layer (p3_1 self) x ;; call_layer (p3_2 self) t.
Definition forward_p4 (self : Inception) (x : T) : prog T :=
  t <- call_layer (p4_1 self) x ;; call_layer (p4_2 self) t.

Definition forward (self : Inception) (x : T) : prog T :=
  p1 <- forward_p1 self x ;;
  p2 <- forward_p2 self x ;;
  p3 <- forward_p3 self x ;;
  p4 <- forward_p4 self x ;;
  (* Concatenate the outputs on the channel dimension *)
  nd_concat [p1; p2; p3; p4] 1.

(** Calling a block: a pre-built layer is one framework call, an Inception
    block runs [forward], a Sequential feeds each child the output of the
    one before it. *)
Fixpoint forward_block (b : Block) (x : T) : prog T :=
  match b with
  | Prim l => call_layer l x
  | Incep i => forward i x
  | Sequential _ children =>
      (fix go (bs : list Block) (x : T) : prog T :=
         match bs with
         | [] => Ret x
         | b' :: bs' => y <- forward_block b' x ;; go bs' y
         end) children x
  end.

(** *** The shape-printing cell *)

Definition nd_random_uniform (shape : list nat) : prog T :=
  Do (RandomUniform shape) (fun y => Ret y).
Definition net_initialize (b : Block) (force_reinit : bool)
    (ctx init : option Obj) : prog unit :=
  Do (Initialize b force_reinit ctx init) (fun u => Ret u).
Definition attr_name (b : Block) : prog string :=
  Do (AttrName b) (fun s => Ret s).
Definition attr_shape (x : T) : prog (list nat) :=
  Do (AttrShape x) (fun s => Ret s).
Definition print (name sep : string) (shape : list nat) : prog unit :=
  Do (Print name sep shape) (fun u => Ret u).

Definition tab : string := String (Ascii.ascii_of_nat 9) EmptyString.

(** The string literal ['output shape:\t']. *)
Definition output_shape : string := ("output shape:" ++ tab)%string.

(** [print(layer.name, 'output shape:\t', X.shape)]. *)
Definition print_shape (layer : Block) (X : T) : prog unit :=
  name <- attr_name layer ;;
  shape <- attr_shape X ;;
  print name output_shape shape.

(** [for layer in net: X = layer(X); print(...)]; the value is [X] after
    the loop. *)
Fixpoint shape_loop (layers : list Block) (X : T) : prog T :=
  match layers with
  | [] => Ret X
  | layer :: rest =>
      X' <- forward_block layer X ;;
      print_shape layer X' ;;;
      shape_loop rest X'
  end.

Definition shape_cell : prog T :=
  X <- nd_random_uniform [1; 1; 96; 96] ;;
  net_initialize net false None None ;;;
  shape_loop (children_of net) X.

(** *** The training cell *)

Definition d2l_try_gpu : prog Obj := Do TryGpu (fun o => Ret o).
Definition init_Xavier : prog Obj := Do InitXavier (fun o => Ret o).
Definition collect_params (b : Block) : prog Obj :=
  Do (CollectParams b) (fun o => Ret o).
Definition gluon_Trainer (params : Obj) (optimizer : string)
    (optimizer_params : list (string * Q)) : prog Obj :=
  Do (NewTrainer params optimizer optimizer_params) (fun o => Ret o).
Definition d2l_load_data_fashion_mnist (batch_size : nat)
    (resize : option nat) : prog (Obj * Obj) :=
  Do (LoadDataFashionMnist batch_size resize) (fun o => Ret o).
Definition d2l_train_ch5 (b : Block) (train_iter test_iter : Obj)
    (batch_size : nat) (trainer ctx : Obj) (num_epochs : nat) : prog unit :=
  Do (TrainCh5 b train_iter test_iter batch_size trainer ctx num_epochs)
     (fun u => Ret u).

(** [lr, num_epochs, batch_size, ctx = 0.1, 5, 128, d2l.try_gpu()].  The
    decimal literal [0.1] is kept as the rational it denotes. *)
Definition lr : Q := 1 # 10.
Definition num_epochs : nat := 5.
Definition batch_size : nat := 128.

Definition training_cell : prog unit :=
  ctx <- d2l_try_gpu ;;
  xavier <- init_Xavier ;;
  net_initialize net true (Some ctx) (Some xavier) ;;;
  params <- collect_params net ;;
  trainer <- gluon_Trainer params "sgd" [("learning_rate", lr)] ;;
  iters <- d2l_load_data_fashion_mnist batch_size (Some 96) ;;
  d2l_train_ch5 net (fst iters) (snd iters) batch_size trainer ctx
    num_epochs.

End Notebook.

(** ** Running a program against a framework *)

Section Semantics.

Context {T Obj : Type}.

(** [W] is the framework's mutable state (parameter arrays, random
    generator, devices); [E] its exceptions.  A command either raises or
    answers, and leaves a state behind in both cases. *)
Context {W E : Type}.

Definition handler : Type :=
  forall c : cmd T Obj, W -> (E + resp c) * W.

Variable h : handler.

Fixpoint run {A : Type} (p : prog T Obj A) (w : W) : (E + A) * W :=
  match p with
  | Ret a => (inr a, w)
  | Do c k =>
      match h c w with
      | (inl e, w') => (inl e, w')
      | (inr r, w') => run (k r) w'
      end
  | TryExcept body handler k =>
      match run body w with
      | (inr x, w') => run (k x) w'
      | (inl _, w') =>
          match run handler w' with
          | (inr x, w'') => run (k x) w''
          | (inl e, w'') => (inl e, w'')
          end
      end
  end.

(** The commands a run issues, in order. *)
Fixpoint trace {A : Type} (p : prog T Obj A) (w : W) : list (cmd T Obj) :=
  match p with
  | Ret _ => []
  | Do c k =>
      c :: match h c w with
           | (inl _, _) => []
           | (inr r, w') => trace (k r) w'
           end
  | TryExcept body handler k =>
      trace body w ++
      match run body w with
      | (inr x, w') => trace (k x) w'
      | (inl _, w') =>
          trace handler w' ++
          match run handler w' with
          | (inr x, w'') => trace (k x) w''
          | (inl _, _) => []
          end
      end
  end.

(** [issues p w c w0]: started in state [w], program [p] gets as far as
    issuing command [c], which the framework receives in state [w0]. *)
Inductive issues {A : Type} : prog T Obj A -> W -> cmd T Obj -> W -> Prop :=
| issues_now c k w : issues (Do c k) w c w
| issues_later c k w r w1 c' w0 :
    h c w = (inr r, w1) ->
    issues (k r) w1 c' w0 ->
    issues (Do c k) w c' w0
| issues_in_try X (body handler : prog T Obj X) k w c w0 :
    issues body w c w0 ->
    issues (TryExcept body handler k) w c w0
| issues_in_except X (body handler : prog T Obj X) k w e w1 c w0 :
    run body w = (inl e, w1) ->
    issues handler w1 c w0 ->
    issues (TryExcept body handler k) w c w0
| issues_after_try X (body handler : prog T Obj X) k w x w1 c w0 :
    run body w = (inr x, w1) ->
    issues (k x) w1 c w0 ->
    issues (TryExcept body handler k) w c w0
| issues_after_except X (body handler : prog T Obj X) k w e w1 x w2 c w0 :
    run body w = (inl e, w1) ->
    run handler w1 = (inr x, w2) ->
    issues (k x) w2 c w0 ->
    issues (TryExcept body handler k) w c w0.

(** A program without [try]/[except]. *)
Fixpoint handler_free {A : Type} (p : prog T Obj A) : Prop :=
  match p with
  | Ret _ => True
  | Do _ k => forall r, handler_free (k r)
  | TryExcept _ _ _ => False
  end.

(** The result of a layer and of a concatenation in a given state. *)
Definition layer_fn (w : W) (l : Layer) (x : T) : E + T :=
  fst (h (LayerCall l x) w).
Definition concat_fn (w : W) (xs : list T) (dim : nat) : E + T :=
  fst (h (NdConcat xs dim) w).

(** A framework whose layer calls and concatenation only read its state. *)
Definition layers_read_only : Prop :=
  (forall l x w, snd (h (LayerCall l x) w) = w) /\
  (forall xs dim w, snd (h (NdConcat xs dim) w) = w).

End Semantics.

(** ** The plain function the specification compares the class with *)

Section Plain.

Context {T E : Type}.

(** One sub-computation after another, stopping at the first failure. *)
Definition and_then (f g : T -> E + T) (x : T) : E + T :=
  match f x with
  | inl e => inl e
  | inr y => g y
  end.

(** Four sub-computations of the same input, their results concatenated. *)
Definition plain_inception (path1 path2 path3 path4 : T -> E + T)
    (cat : list T -> E + T) (x : T) : E + T :=
  match path1 x with
  | inl e => inl e
  | inr r1 =>
      match path2 x with
      | inl e => inl e
      | inr r2 =>
          match path3 x with
          | inl e => inl e
          | inr r3 =>
              match path4 x with
              | inl e => inl e
              | inr r4 => cat [r1; r2; r3; r4]
              end
          end
      end
  end.

End Plain.

(** ** The framework's shape rules

    The notebook relies on the framework for the shape of every result.  The
    handler below interprets tensors by their shape alone, with the rules
    the framework documents: a convolution or pooling window of size [k],
    stride [s] and padding [p] maps a side of length [n] to
    [(n + 2p - k) / s + 1] and rejects a window larger than the padded
    input; concatenation needs equal sizes away from the joined axis; global
    average pooling leaves one value per channel; a dense layer flattens
    everything but the batch axis. *)

Definition shape := list nat.

Definition window_out (n k s p : nat) : option nat :=
  if (s =? 0) || (n + 2 * p <? k) then None
  else Some ((n + 2 * p - k) / s + 1).

Definition shape_layer (l : Layer) (x : shape) : string + shape :=
  match l with
  | LConv2D c =>
      match x with
      | [n; _; hh; ww] =>
          match window_out hh (kernel_size c) (strides c) (padding c),
                window_out ww (kernel_size c) (strides c) (padding c) with
          | Some h', Some w' => inr [n; channels c; h'; w']
          | _, _ => inl "kernel larger than padded input"
          end
      | _ => inl "expected a 4-D input"
      end
  | LMaxPool2D p =>
      match x with
      | [n; ch; hh; ww] =>
          match window_out hh (pool_size p) (pool_strides p) (pool_padding p),
                window_out ww (pool_size p) (pool_strides p) (pool_padding p)
          with
          | Some h', Some w' => inr [n; ch; h'; w']
          | _, _ => inl "kernel larger than padded input"
          end
      | _ => inl "expected a 4-D input"
      end
  | LGlobalAvgPool2D _ =>
      match x with
      | [n; ch; _; _] => inr [n; ch; 1; 1]
      | _ => inl "expected a 4-D input"
      end
  | LDense _ units =>
      match x with
      | n :: _ => inr [n; units]
      | [] => inl "expected at least one axis"
      end
  end.

Definition drop_axis (dim : nat) (s : shape) : shape :=
  firstn dim s ++ skipn (S dim) s.

Definition shape_eqb (a b : shape) : bool :=
  if list_eq_dec Nat.eq_dec a b then true else false.

Definition shape_concat (xs : list shape) (dim : nat) : string + shape :=
  match xs with
  | [] => inl "nothing to concatenate"
  | x0 :: _ =>
      if (dim <? List.length x0)
         && forallb (fun x => (List.length x =? List.length x0)
                              && shape_eqb (drop_axis dim x) (drop_axis dim x0))
                    xs
      then inr (firstn dim x0
                ++ [list_sum (map (fun x => nth dim x 0) xs)]
                ++ skipn (S dim) x0)
      else inl "shapes differ away from the concatenation axis"
  end.

(** What the shape-level handlers answer for [layer.name]: the place where
    the notebook creates the block.  gluon generates its names from a
    counter ([sequential0], [dense0], ...); the theorems leave the names to
    the framework. *)
Definition block_ident (b : Block) : ident :=
  match b with
  | Prim (LConv2D c) => conv_self c
  | Prim (LMaxPool2D p) => pool_self p
  | Prim (LGlobalAvgPool2D self) => self
  | Prim (LDense self _) => self
  | Incep i => inception_self i
  | Sequential self _ => self
  end.

(** The state of this handler counts the draws from the random generator:
    [nd.random.uniform], parameter initialisation and training draw from it,
    layer calls do not. *)
Definition shape_handler : @handler shape unit nat string :=
  fun c w =>
    match c as c0 return (string + resp c0) * nat with
    | LayerCall l x => (shape_layer l x, w)
    | NdConcat xs dim => (shape_concat xs dim, w)
    | RandomUniform s => (inr s, S w)
    | Initialize _ _ _ _ => (inr tt, S w)
    | AttrName b => (inr (block_ident b), w)
    | AttrShape x => (inr x, w)
    | Print _ _ _ => (inr tt, w)
    | TryGpu => (inr tt, w)
    | InitXavier => (inr tt, w)
    | CollectParams _ => (inr tt, w)
    | NewTrainer _ _ _ => (inr tt, w)
    | LoadDataFashionMnist _ _ => (inr (tt, tt), w)
    | TrainCh5 _ _ _ _ _ _ _ => (inr tt, S w)
    end.

(** The lines a run prints. *)
Definition printed {T Obj : Type} (tr : list (cmd T Obj))
    : list (string * string * list nat) :=
  flat_map (fun c => match c with
                     | Print n s sh => [(n, s, sh)]
                     | _ => []
                     end) tr.

(** ** Vocabulary of the specification *)

(** A [k] x [k] convolution, a [k] x [k] maximum pooling. *)
Definition is_conv (k : nat) (l : Layer) : bool :=
  match l with
  | LConv2D c => kernel_size c =? k
  | _ => false
  end.

Definition is_max_pool (k : nat) (l : Layer) : bool :=
  match l with
  | LMaxPool2D p => pool_size p =? k
  | _ => false
  end.

(** The pre-built layers a block is made of. *)
Fixpoint layers_of (b : Block) : list Layer :=
  match b with
  | Prim l => [l]
  | Incep i => [p1_1 i; p2_1 i; p2_2 i; p3_1 i; p3_2 i; p4_1 i; p4_2 i]
  | Sequential _ children => flat_map layers_of children
  end.

(** The channel axis of what an Inception block returns for an input of
    shape [x], under the shape rules. *)
Definition out_channels_on (blk : Inception) (x : shape) : option nat :=
  match run shape_handler (forward blk x) 0 with
  | (inr [_; ch; _; _], _) => Some ch
  | _ => None
  end.

Section LoopOutput.

Context {T Obj W E : Type}.
Variable h : @handler T Obj W E.
Variable name_of : Block -> string.
Variable shape_of : T -> list nat.

(** Reading [layer.name] and [X.shape] and printing always succeed, depend
    on nothing but the object, and leave the framework's state alone. *)
Definition printing_transparent : Prop :=
  (forall b w, h (AttrName b) w = (inr (name_of b), w)) /\
  (forall x w, h (AttrShape x) w = (inr (shape_of x), w)) /\
  (forall n s sh w, h (Print n s sh) w = (inr tt, w)).

(** One line per layer, in order: the layer's name and the shape of the
    output of that layer, each layer being fed the output of the one before
    it. *)
Fixpoint loop_lines (layers : list Block) (X : T) (w : W)
    : list (string * string * list nat) :=
  match layers with
  | [] => []
  | layer :: rest =>
      match run h (forward_block layer X) w with
      | (inr X', w') =>
          (name_of layer, output_shape, shape_of X')
          :: loop_lines rest X' w'
      | (inl _, _) => []
      end
  end.

End LoopOutput.


(** What the commands of a forward pass through [b] may carry: one of the
    layers built when [b] was constructed, or a concatenation on axis 1. *)
Definition forward_cmd_ok {T Obj : Type} (b : Block) (c : cmd T Obj) : Prop :=
  match c with
  | LayerCall l _ => In l (layers_of b)
  | NdConcat _ dim => dim = 1
  | _ => False
  end.

(** A framework obeys the shape rules when every tensor it returns from a layer
    call or from a concatenation has the shape the rules give for the shapes
    of the arguments. *)
Definition obeys_shape_rules {T Obj W E : Type} (h : @handler T Obj W E)
    (shape_of : T -> shape) : Prop :=
  (forall l x w y w',
      h (LayerCall l x) w = (inr y, w') ->
      shape_layer l (shape_of x) = inr (shape_of y)) /\
  (forall xs dim w y w',
      h (NdConcat xs dim) w = (inr y, w') ->
      shape_concat (map shape_of xs) dim = inr (shape_of y)).

(** The layers a run calls, in the order it calls them. *)
Definition called_layers {T Obj : Type} (tr : list (cmd T Obj))
    : list Layer :=
  flat_map (fun c => match c with
                     | LayerCall l _ => [l]
                     | _ => []
                     end) tr.

(** A program that talks to the framework through layer calls and
    concatenations only: it draws no random numbers, initialises nothing,
    trains nothing, and handles no exception. *)
Fixpoint only_layer_calls {T Obj A : Type} (p : prog T Obj A) : Prop :=
  match p with
  | Ret _ => True
  | Do c k =>
      match c with
      | LayerCall _ _ | NdConcat _ _ => forall r, only_layer_calls (k r)
      | _ => False
      end
  | TryExcept _ _ _ => False
  end.

(** ** What a framework keeps between calls

    A layer of the framework owns parameters (weights, bias).  They need not
    exist when the layer is first called: gluon allocates and draws them
    inside that call, once it has seen the input.  The assumptions below say
    what a forward pass may rely on all the same. *)

Section Parameters.

Context {T Obj W E P D : Type}.
Variable h : @handler T Obj W E.

(** The parameters layer [l] holds in state [w], if it holds any yet. *)
Variable params : W -> Layer -> option P.

(** Layer [l] as a function of its parameters and its input, and the
    concatenation as a function of its arguments. *)
Variable layer_apply : Layer -> P -> T -> E + T.
Variable concat_apply : list T -> nat -> E + T.

(** Parameters that are set in [w] are the same in [w']. *)
Definition params_kept (w w' : W) : Prop :=
  forall l p, params w l = Some p -> params w' l = Some p.

(** - a layer call that returns leaves the layer with parameters, and what it
      returned is the layer's function of these parameters and the input;
    - a layer call that raises on a layer whose parameters are set raises
      what the layer's function raises;
    - no layer call and no concatenation changes parameters that are set;
    - a concatenation is a function of its arguments. *)
Definition keeps_parameters : Prop :=
  (forall l x w y w',
      h (LayerCall l x) w = (inr y, w') ->
      exists p, params w' l = Some p /\ layer_apply l p x = inr y) /\
  (forall l x w e w' p,
      h (LayerCall l x) w = (inl e, w') ->
      params w l = Some p ->
      layer_apply l p x = inl e) /\
  (forall l x w, params_kept w (snd (h (LayerCall l x) w))) /\
  (forall xs dim w, fst (h (NdConcat xs dim) w) = concat_apply xs dim) /\
  (forall xs dim w, params_kept w (snd (h (NdConcat xs dim) w))).

(** The tensors that exist in state [w] and what they hold. *)
Variable live : W -> T -> Prop.
Variable data : W -> T -> D.



End Parameters.

(** *** A shape-level framework with deferred initialisation

    As [shape_handler], but a layer that holds weights (a convolution, a
    dense layer) learns the number of its input features on its first
    successful call, as gluon does, and from then on rejects an input with
    another number.  The state lists the layers set so far;
    [initialize(force_reinit=True)] forgets them. *)

Definition layer_ident (l : Layer) : ident :=
  match l with
  | LConv2D c => conv_self c
  | LMaxPool2D p => pool_self p
  | LGlobalAvgPool2D self => self
  | LDense self _ => self
  end.

Definition has_weights (l : Layer) : bool :=
  match l with
  | LConv2D _ | LDense _ _ => true
  | _ => false
  end.

Definition in_features (l : Layer) (x : shape) : nat :=
  match l with
  | LDense _ _ => fold_right Nat.mul 1 (tl x)
  | _ => nth 1 x 0
  end.

Fixpoint lookup (k : ident) (w : list (ident * nat)) : option nat :=
  match w with
  | [] => None
  | (k', v) :: w' => if String.eqb k k' then Some v else lookup k w'
  end.

Definition lazy_params (w : list (ident * nat)) (l : Layer) : option nat :=
  if has_weights l then lookup (layer_ident l) w else Some 0.

Definition lazy_apply (l : Layer) (fan_in : nat) (x : shape)
    : string + shape :=
  match shape_layer l x with
  | inl e => inl e
  | inr y =>
      if has_weights l && negb (fan_in =? in_features l x)
      then inl "input does not fit the layer's weights"
      else inr y
  end.

Definition lazy_layer_call (l : Layer) (x : shape) (w : list (ident * nat))
    : (string + shape) * list (ident * nat) :=
  match lazy_params w l with
  | Some fan_in => (lazy_apply l fan_in x, w)
  | None =>
      match shape_layer l x with
      | inl e => (inl e, w)
      | inr y => (inr y, (layer_ident l, in_features l x) :: w)
      end
  end.

Definition lazy_handler : @handler shape unit (list (ident * nat)) string :=
  fun c w =>
    match c as c0 return (string + resp c0) * list (ident * nat) with
    | LayerCall l x => lazy_layer_call l x w
    | NdConcat xs dim => (shape_concat xs dim, w)
    | RandomUniform s => (inr s, w)
    | Initialize _ force_reinit _ _ =>
        (inr tt, if force_reinit then [] else w)
    | AttrName b => (inr (block_ident b), w)
    | AttrShape x => (inr x, w)
    | Print _ _ _ => (inr tt, w)
    | TryGpu => (inr tt, w)
    | InitXavier => (inr tt, w)
    | CollectParams _ => (inr tt, w)
    | NewTrainer _ _ _ => (inr tt, w)
    | LoadDataFashionMnist _ _ => (inr (tt, tt), w)
    | TrainCh5 _ _ _ _ _ _ _ => (inr tt, w)
    end.

(** Pairwise distinct names. *)
Fixpoint distinctb (l : list ident) : bool :=
  match l with
  | [] => true
  | x :: r => negb (existsb (String.eqb x) r) && distinctb r
  end.

(** A program that neither catches nor alters the framework's exceptions:
    a run fails exactly when a command it issued failed, with that command's
    exception and the state that command left, and the failing command is
    the last one of the run. *)
Definition propagates_failures {T Obj W E A : Type}
    (h : @handler T Obj W E) (p : prog T Obj A) : Prop :=
  forall w e w',
    (run h p w = (inl e, w') <->
     exists c w0, issues h p w c w0 /\ h c w0 = (inl e, w')) /\
    (forall c w0, issues h p w c w0 -> h c w0 = (inl e, w') ->
                  exists tr, trace h p w = tr ++ [c]).

(** ** Facts about running programs *)

Section SemanticsFacts.

Context {T Obj W E : Type}.
Variable h : @handler T Obj W E.

Lemma run_bind {A B : Type} (m : prog T Obj A) (f : A -> prog T Obj B) w :
  run h (bind m f) w =
  match run h m w with
  | (inl e, w') => (inl e, w')
  | (inr a, w') => run h (f a) w'
  end.
Proof.
  revert B f w.
  induction m as [A a | A c k IH | A X body _ handler _ k IHk];
    intros B f w; simpl.
  - reflexivity.
  - destruct (h c w) as [[e | r] w1]; [reflexivity | apply IH].
  - destruct (run h body w) as [[e | x] w1]; [| apply IHk].
    destruct (run h handler w1) as [[e' | x] w2]; [reflexivity | apply IHk].
Qed.

Lemma trace_bind {A B : Type} (m : prog T Obj A) (f : A -> prog T Obj B) w :
  trace h (bind m f) w =
  trace h m w ++
  match run h m w with
  | (inl _, _) => []
  | (inr a, w') => trace h (f a) w'
  end.
Proof.
  revert B f w.
  induction m as [A a | A c k IH | A X body _ handler _ k IHk];
    intros B f w; simpl.
  - reflexivity.
  - f_equal. destruct (h c w) as [[e | r] w1]; [reflexivity | apply IH].
  - rewrite <- app_assoc. f_equal.
    destruct (run h body w) as [[e | x] w1]; [| apply IHk].
    rewrite <- app_assoc. f_equal.
    destruct (run h handler w1) as [[e' | x] w2]; [reflexivity | apply IHk].
Qed.

Lemma handler_free_bind {A B : Type} (m : prog T Obj A)
    (f : A -> prog T Obj B) :
  handler_free m -> (forall a, handler_free (f a)) ->
  handler_free (bind m f).
Proof.
  revert B f.
  induction m as [A a | A c k IH | A X body _ handler _ k _];
    intros B f Hm Hf; simpl in *.
  - apply Hf.
  - intros r. apply IH; [apply Hm | exact Hf].
  - contradiction.
Qed.

(** Without [try]/[except] a run fails exactly when a command it issues
    fails, and then with that command's exception and state. *)
Lemma run_fails_iff {A : Type} (p : prog T Obj A) w e w' :
  handler_free p ->
  run h p w = (inl e, w') <->
  exists c w0, issues h p w c w0 /\ h c w0 = (inl e, w').
Proof.
  intros Hfree. split.
  - revert w Hfree.
    induction p as [A a | A c k IH | A X body _ handler _ k _];
      intros w Hfree Hrun; simpl in Hrun, Hfree.
    + discriminate.
    + destruct (h c w) as [[e1 | r] w1] eqn:Hc.
      * inversion Hrun; subst. exists c, w. split; [constructor | exact Hc].
      * destruct (IH r w1 (Hfree r) Hrun) as (c' & w0 & Hi & Hf).
        exists c', w0. split; [eapply issues_later; eassumption | exact Hf].
    + contradiction.
  - intros (c & w0 & Hi & Hf).
    induction Hi as [A c k w | A c k w r w1 c' w0 Hc Hi IH | | | | ];
      simpl in Hfree; try contradiction; simpl.
    + rewrite Hf. reflexivity.
    + rewrite Hc. apply IH; [apply Hfree | exact Hf].
Qed.

Lemma failing_command_is_last {A : Type} (p : prog T Obj A) w c w0 e w' :
  handler_free p ->
  issues h p w c w0 -> h c w0 = (inl e, w') ->
  exists tr, trace h p w = tr ++ [c].
Proof.
  intros Hfree Hi Hf.
  induction Hi as [A c k w | A c k w r w1 c' w0 Hc Hi IH | | | | ];
    simpl in Hfree; try contradiction; simpl.
  - rewrite Hf. exists []. reflexivity.
  - rewrite Hc. destruct (IH (Hfree r) Hf) as [tr Htr].
    exists (c :: tr). rewrite Htr. reflexivity.
Qed.

Lemma handler_free_propagates {A : Type} (p : prog T Obj A) :
  handler_free p -> propagates_failures h p.
Proof.
  intros Hfree w e w'. split.
  - apply run_fails_iff, Hfree.
  - intros c w0. apply failing_command_is_last, Hfree.
Qed.

(** Layer calls and concatenation under a framework that only reads its
    state when serving them. *)
Lemma run_call_layer_ro l x w :
  layers_read_only h ->
  run h (call_layer l x) w = (layer_fn h w l x, w).
Proof.
  intros [Hl _]. unfold layer_fn. simpl.
  specialize (Hl l x w).
  destruct (h (LayerCall l x) w) as [[e | r] w1]; simpl in *; subst;
    reflexivity.
Qed.

Lemma run_nd_concat_ro xs dim w :
  layers_read_only h ->
  run h (nd_concat xs dim) w = (concat_fn h w xs dim, w).
Proof.
  intros [_ Hc]. unfold concat_fn. simpl.
  specialize (Hc xs dim w).
  destruct (h (NdConcat xs dim) w) as [[e | r] w1]; simpl in *; subst;
    reflexivity.
Qed.

Lemma run_path_ro l1 l2 x w :
  layers_read_only h ->
  run h (t <- call_layer l1 x ;; call_layer l2 t) w =
  (and_then (layer_fn h w l1) (layer_fn h w l2) x, w).
Proof.
  intros Hro. rewrite run_bind, run_call_layer_ro by assumption.
  unfold and_then.
  destruct (layer_fn h w l1 x) as [e | t]; [reflexivity |].
  apply run_call_layer_ro, Hro.
Qed.

Lemma run_forward_ro (blk : Inception) x w :
  layers_read_only h ->
  run h (forward blk x) w =
  (plain_inception
     (layer_fn h w (p1_1 blk))
     (and_then (layer_fn h w (p2_1 blk)) (layer_fn h w (p2_2 blk)))
     (and_then (layer_fn h w (p3_1 blk)) (layer_fn h w (p3_2 blk)))
     (and_then (layer_fn h w (p4_1 blk)) (layer_fn h w (p4_2 blk)))
     (fun xs => concat_fn h w xs 1) x, w).
Proof.
  intros Hro. unfold forward, forward_p1, forward_p2, forward_p3, forward_p4,
    plain_inception.
  rewrite run_bind, run_call_layer_ro by assumption.
  destruct (layer_fn h w (p1_1 blk) x) as [e | r1]; [reflexivity |].
  rewrite run_bind, run_path_ro by assumption.
  destruct (and_then _ _ x) as [e | r2]; [reflexivity |].
  rewrite run_bind, run_path_ro by assumption.
  destruct (and_then _ _ x) as [e | r3]; [reflexivity |].
  rewrite run_bind, run_path_ro by assumption.
  destruct (and_then _ _ x) as [e | r4]; [reflexivity |].
  apply run_nd_concat_ro, Hro.
Qed.

End SemanticsFacts.

(** ** The Inception block *)

(** C1.  [Inception.forward] is four paths over the same input [x] and one
    concatenation: path 1 is a 1x1 convolution; path 2 a 1x1 convolution
    followed by a 3x3 one; path 3 a 1x1 convolution followed by a 5x5 one;
    path 4 a 3x3 maximum pooling followed by a 1x1 convolution.  The head of
    every path receives [x] itself, the second layer of a path receives the
    output of the first, and the value returned is the concatenation of the
    four path outputs on axis 1.  No other command is issued. *)
Theorem forward_four_paths_concat :
  forall (T Obj : Type) (self : ident) (c1 : nat) (c2 c3 : nat * nat)
         (c4 : nat) (x : T),
    let blk := Inception_init self c1 c2 c3 c4 in
    is_conv 1 (p1_1 blk) = true /\
    is_conv 1 (p2_1 blk) = true /\ is_conv 3 (p2_2 blk) = true /\
    is_conv 1 (p3_1 blk) = true /\ is_conv 5 (p3_2 blk) = true /\
    is_max_pool 3 (p4_1 blk) = true /\ is_conv 1 (p4_2 blk) = true /\
    forward (Obj := Obj) blk x =
      Do (LayerCall (p1_1 blk) x) (fun r1 =>
      Do (LayerCall (p2_1 blk) x) (fun t2 =>
      Do (LayerCall (p2_2 blk) t2) (fun r2 =>
      Do (LayerCall (p3_1 blk) x) (fun t3 =>
      Do (LayerCall (p3_2 blk) t3) (fun r3 =>
      Do (LayerCall (p4_1 blk) x) (fun t4 =>
      Do (LayerCall (p4_2 blk) t4) (fun r4 =>
      Do (NdConcat [r1; r2; r3; r4] 1) (fun y => Ret y)))))))).
Proof.
  intros T Obj self c1 c2 c3 c4 x blk.
  repeat split.
Qed.

(** ** The assembled network *)

Lemma inceptions_net :
  inceptions net =
  [ Inception_init "b3[0]" 64 (96, 128) (16, 32) 32;
    Inception_init "b3[1]" 128 (128, 192) (32, 96) 64;
    Inception_init "b4[0]" 192 (96, 208) (16, 48) 64;
    Inception_init "b4[1]" 160 (112, 224) (24, 64) 64;
    Inception_init "b4[2]" 128 (128, 256) (24, 64) 64;
    Inception_init "b4[3]" 112 (144, 288) (32, 64) 64;
    Inception_init "b4[4]" 256 (160, 320) (32, 128) 128;
    Inception_init "b5[0]" 256 (160, 320) (32, 128) 128;
    Inception_init "b5[1]" 384 (192, 384) (48, 128) 128 ].
Proof. reflexivity. Qed.

(** C3.  [net] has exactly six children, [b1], [b2], [b3], [b4], [b5] and a
    dense layer with 10 outputs, in that order, and calling it on any input
    is calling them one after the other, each on the output of the one
    before: the result is that of [Dense(b5(b4(b3(b2(b1(input))))))]. *)
Theorem net_is_five_groups_then_dense :
  children_of net = [b1; b2; b3; b4; b5; Prim (LDense "net[5]" 10)] /\
  forall (T Obj : Type) (x : T),
    forward_block (Obj := Obj) net x =
      (x1 <- forward_block b1 x ;;
       x2 <- forward_block b2 x1 ;;
       x3 <- forward_block b3 x2 ;;
       x4 <- forward_block b4 x3 ;;
       x5 <- forward_block b5 x4 ;;
       call_layer (LDense "net[5]" 10) x5).
Proof.
  split; [reflexivity | intros T Obj x; reflexivity].
Qed.

(** C8.  [net] holds exactly nine Inception instances, all distinct objects:
    two in [b3], five in [b4], two in [b5], and none in [b1], [b2] or the
    dense layer, which are the only other children of [net]. *)
Theorem net_has_nine_inceptions :
  children_of net = [b1; b2; b3; b4; b5; Prim (LDense "net[5]" 10)] /\
  List.length (inceptions b1) = 0 /\
  List.length (inceptions b2) = 0 /\
  List.length (inceptions b3) = 2 /\
  List.length (inceptions b4) = 5 /\
  List.length (inceptions b5) = 2 /\
  List.length (inceptions (Prim (LDense "net[5]" 10))) = 0 /\
  List.length (inceptions net) = 9 /\
  NoDup (map inception_self (inceptions net)).
Proof.
  repeat split; try reflexivity.
  rewrite inceptions_net. simpl.
  repeat (constructor; [simpl; intuition discriminate |]).
  constructor.
Qed.

(** ** Shapes through an Inception block *)

Lemma shape_handler_read_only : layers_read_only shape_handler.
Proof. split; intros; reflexivity. Qed.

(** A window of odd size [2p + 1] with stride 1 and padding [p] keeps the
    length of a non-empty side, and rejects an empty one. *)
Lemma window_out_same (n k p : nat) :
  k = 2 * p + 1 -> 1 <= n -> window_out n k 1 p = Some n.
Proof.
  intros -> Hn. unfold window_out.
  replace (1 =? 0) with false by reflexivity.
  replace (n + 2 * p <? 2 * p + 1) with false
    by (symmetry; apply Nat.ltb_ge; lia).
  cbn [orb]. rewrite Nat.div_1_r. f_equal. lia.
Qed.

Lemma window_out_accepts (n k p m : nat) :
  k = 2 * p + 1 -> window_out n k 1 p = Some m -> 1 <= n.
Proof.
  intros -> H. unfold window_out in H.
  destruct (n + 2 * p <? 2 * p + 1) eqn:Hlt.
  - rewrite orb_true_r in H. discriminate.
  - apply Nat.ltb_ge in Hlt. lia.
Qed.

Lemma shape_conv_same (self : ident) (ch k p n c hh ww : nat) :
  k = 2 * p + 1 -> 1 <= hh -> 1 <= ww ->
  shape_layer (nn_Conv2D_pad_relu self ch k p) [n; c; hh; ww]
  = inr [n; ch; hh; ww].
Proof.
  intros Hk Hh Hw. unfold shape_layer, nn_Conv2D_pad_relu.
  cbn [kernel_size strides padding channels].
  rewrite !window_out_same by assumption. reflexivity.
Qed.

Lemma shape_pool_same (self : ident) (k p n c hh ww : nat) :
  k = 2 * p + 1 -> 1 <= hh -> 1 <= ww ->
  shape_layer (nn_MaxPool2D self k 1 p) [n; c; hh; ww] = inr [n; c; hh; ww].
Proof.
  intros Hk Hh Hw. unfold shape_layer, nn_MaxPool2D.
  cbn [pool_size pool_strides pool_padding].
  rewrite !window_out_same by assumption. reflexivity.
Qed.

Lemma shape_conv1_accepts (self : ident) (ch : nat) (x y : shape) :
  shape_layer (nn_Conv2D_relu self ch 1) x = inr y ->
  exists n c hh ww, x = [n; c; hh; ww] /\ 1 <= hh /\ 1 <= ww.
Proof.
  unfold shape_layer, nn_Conv2D_relu.
  cbn [kernel_size strides padding channels].
  destruct x as [| n [| c [| hh [| ww [| ? ?]]]]]; try discriminate.
  destruct (window_out hh 1 1 0) as [h' |] eqn:Hh; [| discriminate].
  destruct (window_out ww 1 1 0) as [w' |] eqn:Hw; [| discriminate].
  intros _. exists n, c, hh, ww. repeat split.
  - apply (@window_out_accepts hh 1 0 h'); [reflexivity | assumption].
  - apply (@window_out_accepts ww 1 0 w'); [reflexivity | assumption].
Qed.

Lemma shape_eqb_refl (s : shape) : shape_eqb s s = true.
Proof.
  unfold shape_eqb. destruct (list_eq_dec Nat.eq_dec s s); congruence.
Qed.

Lemma shape_concat_channels (n a b c d hh ww : nat) :
  shape_concat [[n; a; hh; ww]; [n; b; hh; ww]; [n; c; hh; ww];
                [n; d; hh; ww]] 1
  = inr [n; a + b + c + d; hh; ww].
Proof.
  unfold shape_concat, drop_axis.
  cbn [List.length firstn skipn app forallb map nth list_sum Nat.ltb Nat.leb
       Nat.eqb andb].
  rewrite shape_eqb_refl. cbn [andb].
  replace (list_sum [a; b; c; d]) with (a + b + c + d) by (simpl; lia).
  reflexivity.
Qed.

Lemma forward_shape (self : ident) (c1 : nat) (c2 c3 : nat * nat) (c4 : nat)
    (n c hh ww w : nat) :
  1 <= hh -> 1 <= ww ->
  run shape_handler (forward (Inception_init self c1 c2 c3 c4) [n; c; hh; ww])
      w
  = (inr [n; c1 + snd c2 + snd c3 + c4; hh; ww], w).
Proof.
  intros Hh Hw.
  rewrite (run_forward_ro _ _ _ shape_handler_read_only).
  unfold plain_inception, and_then, layer_fn, concat_fn, Inception_init.
  cbn [p1_1 p2_1 p2_2 p3_1 p3_2 p4_1 p4_2 shape_handler fst].
  change (nn_Conv2D_relu ?s ?ch 1) with (nn_Conv2D_pad_relu s ch 1 0).
  rewrite !shape_conv_same by (assumption || reflexivity).
  rewrite shape_pool_same by (assumption || reflexivity).
  rewrite !shape_conv_same by (assumption || reflexivity).
  rewrite shape_concat_channels. reflexivity.
Qed.

Lemma layers_keep_height_and_width (self : ident) (c1 : nat)
    (c2 c3 : nat * nat) (c4 n hh ww : nat) :
  1 <= hh -> 1 <= ww ->
  Forall (fun l => forall c, exists ch,
              shape_layer l [n; c; hh; ww] = inr [n; ch; hh; ww])
         (layers_of (Incep (Inception_init self c1 c2 c3 c4))).
Proof.
  intros Hh Hw. cbn [layers_of Inception_init p1_1 p2_1 p2_2 p3_1 p3_2 p4_1 p4_2].
  change (nn_Conv2D_relu ?s ?ch 1) with (nn_Conv2D_pad_relu s ch 1 0).
  repeat constructor; intros c; eexists;
    (apply shape_conv_same || apply shape_pool_same);
    (assumption || reflexivity).
Qed.

Lemma path_shapes (self : ident) (c1 : nat) (c2 c3 : nat * nat)
    (c4 n c hh ww w : nat) :
  1 <= hh -> 1 <= ww ->
  let blk := Inception_init self c1 c2 c3 c4 in
  let x := [n; c; hh; ww] in
  run shape_handler (forward_p1 blk x) w = (inr [n; c1; hh; ww], w) /\
  run shape_handler (forward_p2 blk x) w = (inr [n; snd c2; hh; ww], w) /\
  run shape_handler (forward_p3 blk x) w = (inr [n; snd c3; hh; ww], w) /\
  run shape_handler (forward_p4 blk x) w = (inr [n; c4; hh; ww], w).
Proof.
  intros Hh Hw blk x. subst blk x.
  unfold forward_p1, forward_p2, forward_p3, forward_p4.
  rewrite (run_call_layer_ro _ _ _ shape_handler_read_only).
  rewrite !(run_path_ro _ _ _ _ shape_handler_read_only).
  unfold and_then, layer_fn, Inception_init.
  cbn [p1_1 p2_1 p2_2 p3_1 p3_2 p4_1 p4_2 shape_handler fst].
  change (nn_Conv2D_relu ?s ?ch 1) with (nn_Conv2D_pad_relu s ch 1 0).
  rewrite !shape_conv_same by (assumption || reflexivity).
  rewrite shape_pool_same by (assumption || reflexivity).
  rewrite !shape_conv_same by (assumption || reflexivity).
  repeat split.
Qed.

(** *** Any framework that obeys the shape rules *)

Section ShapeAbstraction.

Context {T Obj W E : Type}.
Variable h : @handler T Obj W E.
Variable shape_of : T -> shape.
Hypothesis Hsh : obeys_shape_rules h shape_of.

Lemma run_bind_ok {A B : Type} (m : prog T Obj A) (f : A -> prog T Obj B)
    w b w' :
  run h (bind m f) w = (inr b, w') ->
  exists a w1, run h m w = (inr a, w1) /\ run h (f a) w1 = (inr b, w').
Proof.
  rewrite run_bind.
  destruct (run h m w) as [[e | a] w1]; [discriminate |].
  intros Hf. exists a, w1. split; [reflexivity | exact Hf].
Qed.

Lemma call_layer_shape l x w y w' :
  run h (call_layer l x) w = (inr y, w') ->
  shape_layer l (shape_of x) = inr (shape_of y).
Proof.
  destruct Hsh as [Hl _]. cbn [call_layer run].
  destruct (h (LayerCall l x) w) as [[e | r] w1] eqn:Hc; [discriminate |].
  intros Heq. inversion Heq; subst. eapply Hl, Hc.
Qed.

Lemma path_shape l1 l2 x w y w' :
  run h (t <- call_layer l1 x ;; call_layer l2 t) w = (inr y, w') ->
  and_then (shape_layer l1) (shape_layer l2) (shape_of x)
  = inr (shape_of y).
Proof.
  intros Hrun. apply run_bind_ok in Hrun.
  destruct Hrun as (t & w1 & H1 & H2).
  unfold and_then.
  rewrite (call_layer_shape _ _ _ H1). eapply call_layer_shape, H2.
Qed.

(** The shape handler follows every successful run of [forward]. *)
Lemma forward_shape_sim (blk : Inception) x w y w' (n : nat) :
  run h (forward blk x) w = (inr y, w') ->
  run shape_handler (forward blk (shape_of x)) n = (inr (shape_of y), n).
Proof.
  intros Hrun.
  rewrite (run_forward_ro _ _ _ shape_handler_read_only).
  unfold forward in Hrun.
  apply run_bind_ok in Hrun. destruct Hrun as (r1 & w1 & H1 & Hrun).
  apply run_bind_ok in Hrun. destruct Hrun as (r2 & w2 & H2 & Hrun).
  apply run_bind_ok in Hrun. destruct Hrun as (r3 & w3 & H3 & Hrun).
  apply run_bind_ok in Hrun. destruct Hrun as (r4 & w4 & H4 & Hrun).
  apply call_layer_shape in H1.
  apply path_shape in H2. apply path_shape in H3. apply path_shape in H4.
  destruct Hsh as [_ Hc]. cbn [nd_concat run] in Hrun.
  destruct (h (NdConcat [r1; r2; r3; r4] 1) w4) as [[e | r] w5] eqn:Hcat;
    [discriminate |].
  inversion Hrun; subst. apply Hc in Hcat. cbn [map] in Hcat.
  unfold plain_inception.
  change (layer_fn shape_handler n) with shape_layer.
  rewrite H1, H2, H3, H4.
  change (concat_fn shape_handler n ?xs 1) with (shape_concat xs 1).
  rewrite Hcat. reflexivity.
Qed.

End ShapeAbstraction.

Lemma shape_handler_obeys :
  obeys_shape_rules shape_handler (fun s : shape => s).
Proof.
  split.
  - intros l x w y w' Hc. cbn [shape_handler] in Hc.
    inversion Hc. reflexivity.
  - intros xs dim w y w' Hc. cbn [shape_handler] in Hc.
    rewrite map_id. inversion Hc. reflexivity.
Qed.

Lemma forward_accepts_4d (self : ident) (c1 : nat) (c2 c3 : nat * nat)
    (c4 : nat) (x y : shape) (w w' : nat) :
  run shape_handler (forward (Inception_init self c1 c2 c3 c4) x) w
  = (inr y, w') ->
  exists n c hh ww,
    x = [n; c; hh; ww] /\ 1 <= hh /\ 1 <= ww /\
    y = [n; c1 + snd c2 + snd c3 + c4; hh; ww].
Proof.
  intros Hrun.
  assert (Hx : exists n c hh ww, x = [n; c; hh; ww] /\ 1 <= hh /\ 1 <= ww).
  { pose proof Hrun as H1.
    rewrite (run_forward_ro _ _ _ shape_handler_read_only) in H1.
    unfold plain_inception in H1.
    destruct (layer_fn shape_handler w
                (p1_1 (Inception_init self c1 c2 c3 c4)) x)
      as [e | r1] eqn:Hp1; [discriminate |].
    eapply shape_conv1_accepts. exact Hp1. }
  destruct Hx as (n & c & hh & ww & -> & Hh & Hw).
  exists n, c, hh, ww.
  rewrite forward_shape in Hrun by assumption.
  inversion Hrun; subst. repeat split; assumption.
Qed.

(** C2.  Against any framework that obeys the shape rules, whenever an
    Inception block built with [c1], [c2], [c3], [c4] returns, the result has
    [c1 + c2[1] + c3[1] + c4] channels; under the rules themselves every 4-D
    input with non-empty height and width is accepted, whatever its number
    of channels; for the nine blocks of [net], in order, these sums are
    64+128+32+32 = 256, 128+192+96+64 = 480, 192+208+48+64 = 512,
    160+224+64+64 = 512, 128+256+64+64 = 512, 112+288+64+64 = 528,
    256+320+128+128 = 832 (twice) and 384+384+128+128 = 1024. *)
Theorem inception_output_channels :
  (forall (T Obj W E : Type) (h : @handler T Obj W E)
          (shape_of : T -> shape),
      obeys_shape_rules h shape_of ->
      forall self c1 c2 c3 c4 x y w w',
        run h (forward (Inception_init self c1 c2 c3 c4) x) w = (inr y, w') ->
        exists n hh ww,
          shape_of y = [n; c1 + snd c2 + snd c3 + c4; hh; ww]) /\
  (forall self c1 c2 c3 c4 n c hh ww,
      out_channels_on (Inception_init self c1 c2 c3 c4) [n; c; S hh; S ww]
      = Some (c1 + snd c2 + snd c3 + c4)) /\
  (forall n c hh ww,
      map (fun blk => out_channels_on blk [n; c; S hh; S ww])
          (inceptions net)
      = map Some
          [ 64 + 128 + 32 + 32; 128 + 192 + 96 + 64; 192 + 208 + 48 + 64;
            160 + 224 + 64 + 64; 128 + 256 + 64 + 64; 112 + 288 + 64 + 64;
            256 + 320 + 128 + 128; 256 + 320 + 128 + 128;
            384 + 384 + 128 + 128 ]) /\
  [ 64 + 128 + 32 + 32; 128 + 192 + 96 + 64; 192 + 208 + 48 + 64;
    160 + 224 + 64 + 64; 128 + 256 + 64 + 64; 112 + 288 + 64 + 64;
    256 + 320 + 128 + 128; 256 + 320 + 128 + 128; 384 + 384 + 128 + 128 ]
  = [256; 480; 512; 512; 512; 528; 832; 832; 1024].
Proof.
  assert (Hgen : forall self c1 c2 c3 c4 n c hh ww,
             out_channels_on (Inception_init self c1 c2 c3 c4)
                             [n; c; S hh; S ww]
             = Some (c1 + snd c2 + snd c3 + c4)).
  { intros. unfold out_channels_on.
    rewrite forward_shape by lia. reflexivity. }
  split; [| split; [exact Hgen | split]].
  - intros T Obj W E h shape_of Hsh self c1 c2 c3 c4 x y w w' Hrun.
    apply (forward_shape_sim Hsh _ _ _ 0) in Hrun.
    apply forward_accepts_4d in Hrun.
    destruct Hrun as (n & c & hh & ww & _ & _ & _ & Hy).
    exists n, hh, ww. exact Hy.
  - intros n c hh ww. rewrite inceptions_net. cbn [map].
    rewrite !Hgen. reflexivity.
  - reflexivity.
Qed.

Lemma inception_output_channels_witness :
  obeys_shape_rules shape_handler (fun s : shape => s) /\
  exists n hh ww,
    [1; 480; 6; 6] = [n; 128 + snd (128, 192) + snd (32, 96) + 64; hh; ww].
Proof.
  split.
  - exact shape_handler_obeys.
  - apply (proj1 inception_output_channels
             shape unit nat string shape_handler (fun s : shape => s)
             shape_handler_obeys
             "b3[1]" 128 (128, 192) (32, 96) 64 [1; 256; 6; 6]
             [1; 480; 6; 6] 0 0).
    vm_compute. reflexivity.
Defined.

(** C4.  Against any framework that obeys the shape rules, whenever an
    Inception block accepts an input, that input is 4-D with non-empty height
    [hh] and width [ww]; every one of the seven layers of the block maps a
    shape with these sides to one with the same sides; whatever each of the
    four paths returns on that input has height [hh] and width [ww] (and the
    batch size of the input), so the four outputs differ in the channel axis
    only; the concatenation of such shapes on axis 1 is defined; and the
    block's result has these sides too. *)
Theorem inception_paths_keep_height_and_width :
  forall (T Obj W E : Type) (h : @handler T Obj W E) (shape_of : T -> shape),
    obeys_shape_rules h shape_of ->
    forall (self : ident) (c1 : nat) (c2 c3 : nat * nat) (c4 : nat)
           (x y : T) (w w' : W),
      let blk := Inception_init self c1 c2 c3 c4 in
      run h (forward blk x) w = (inr y, w') ->
      exists n c hh ww,
        shape_of x = [n; c; hh; ww] /\ 1 <= hh /\ 1 <= ww /\
        Forall (fun l => forall c', exists ch,
                    shape_layer l [n; c'; hh; ww] = inr [n; ch; hh; ww])
               (layers_of (Incep blk)) /\
        (forall w1 p w2, run h (forward_p1 blk x) w1 = (inr p, w2) ->
                         shape_of p = [n; c1; hh; ww]) /\
        (forall w1 p w2, run h (forward_p2 blk x) w1 = (inr p, w2) ->
                         shape_of p = [n; snd c2; hh; ww]) /\
        (forall w1 p w2, run h (forward_p3 blk x) w1 = (inr p, w2) ->
                         shape_of p = [n; snd c3; hh; ww]) /\
        (forall w1 p w2, run h (forward_p4 blk x) w1 = (inr p, w2) ->
                         shape_of p = [n; c4; hh; ww]) /\
        shape_concat [[n; c1; hh; ww]; [n; snd c2; hh; ww];
                      [n; snd c3; hh; ww]; [n; c4; hh; ww]] 1
        = inr [n; c1 + snd c2 + snd c3 + c4; hh; ww] /\
        shape_of y = [n; c1 + snd c2 + snd c3 + c4; hh; ww].
Proof.
  intros T Obj W E h shape_of Hsh self c1 c2 c3 c4 x y w w' blk Hrun.
  apply (forward_shape_sim Hsh _ _ _ 0) in Hrun.
  apply forward_accepts_4d in Hrun.
  destruct Hrun as (n & c & hh & ww & Hx & Hh & Hw & Hy).
  exists n, c, hh, ww.
  destruct (path_shapes self c1 c2 c3 c4 n c 0 Hh Hw) as (P1 & P2 & P3 & P4).
  cbv zeta in P1, P2, P3, P4.
  unfold forward_p1 in P1. unfold forward_p2 in P2.
  unfold forward_p3 in P3. unfold forward_p4 in P4.
  rewrite (run_call_layer_ro _ _ _ shape_handler_read_only) in P1.
  rewrite (run_path_ro _ _ _ _ shape_handler_read_only) in P2.
  rewrite (run_path_ro _ _ _ _ shape_handler_read_only) in P3.
  rewrite (run_path_ro _ _ _ _ shape_handler_read_only) in P4.
  change (layer_fn shape_handler 0) with shape_layer in P1, P2, P3, P4.
  repeat split; try assumption.
  - apply layers_keep_height_and_width; assumption.
  - intros w1 p w2 Hp. apply (call_layer_shape Hsh) in Hp.
    rewrite Hx in Hp. subst blk. congruence.
  - intros w1 p w2 Hp. apply (path_shape Hsh) in Hp.
    rewrite Hx in Hp. subst blk. congruence.
  - intros w1 p w2 Hp. apply (path_shape Hsh) in Hp.
    rewrite Hx in Hp. subst blk. congruence.
  - intros w1 p w2 Hp. apply (path_shape Hsh) in Hp.
    rewrite Hx in Hp. subst blk. congruence.
  - apply shape_concat_channels.
Qed.

Lemma inception_paths_keep_height_and_width_witness :
  obeys_shape_rules shape_handler (fun s : shape => s) /\
  run shape_handler
      (forward (Inception_init "b3[0]" 64 (96, 128) (16, 32) 32)
               [1; 192; 12; 12]) 0
  = (inr [1; 256; 12; 12], 0) /\
  exists n c hh ww,
    [1; 192; 12; 12] = [n; c; hh; ww] /\ 1 <= hh /\ 1 <= ww /\
    [1; 256; 12; 12] = [n; 64 + snd (96, 128) + snd (16, 32) + 32; hh; ww].
Proof.
  split; [exact shape_handler_obeys | split; [vm_compute; reflexivity |]].
  destruct (@inception_paths_keep_height_and_width
              shape unit nat string shape_handler (fun s : shape => s)
              shape_handler_obeys
              "b3[0]" 64 (96, 128) (16, 32) 32 [1; 192; 12; 12]
              [1; 256; 12; 12] 0 0)
    as (n & c & hh & ww & Hx & Hh & Hw & _ & _ & _ & _ & _ & _ & Hy).
  - vm_compute. reflexivity.
  - exists n, c, hh, ww. repeat split; assumption.
Defined.

(** ** Commands of a forward pass *)

Lemma Block_nested_ind (P : Block -> Prop) :
  (forall l, P (Prim l)) ->
  (forall i, P (Incep i)) ->
  (forall self children, Forall P children -> P (Sequential self children)) ->
  forall b, P b.
Proof.
  intros HP HI HS.
  fix IH 1.
  intros [l | i | self children].
  - apply HP.
  - apply HI.
  - apply HS. induction children as [| b bs IHbs]; constructor.
    + apply IH.
    + exact IHbs.
Qed.

Lemma forward_block_cons {T Obj : Type} (self : ident) (b : Block)
    (bs : list Block) (x : T) :
  forward_block (Obj := Obj) (Sequential self (b :: bs)) x =
  (y <- forward_block b x ;; forward_block (Sequential self bs) y).
Proof. reflexivity. Qed.

Lemma forward_cmd_ok_head {T Obj : Type} self b bs (c : cmd T Obj) :
  forward_cmd_ok b c -> forward_cmd_ok (Sequential self (b :: bs)) c.
Proof.
  destruct c; cbn [forward_cmd_ok layers_of flat_map]; auto.
  intros Hin. apply in_or_app. left. exact Hin.
Qed.

Lemma forward_cmd_ok_tail {T Obj : Type} self b bs (c : cmd T Obj) :
  forward_cmd_ok (Sequential self bs) c ->
  forward_cmd_ok (Sequential self (b :: bs)) c.
Proof.
  destruct c; cbn [forward_cmd_ok layers_of flat_map]; auto.
  intros Hin. apply in_or_app. right. exact Hin.
Qed.

Lemma printed_of_forward_cmds {T Obj : Type} b (tr : list (cmd T Obj)) :
  Forall (forward_cmd_ok b) tr -> printed tr = [].
Proof.
  induction 1 as [| c tr Hc _ IH]; [reflexivity |].
  unfold printed in *. cbn [flat_map]. rewrite IH.
  destruct c; try reflexivity; contradiction.
Qed.

Section ForwardCommands.

Context {T Obj W E : Type}.
Variable h : @handler T Obj W E.

Ltac step_trace :=
  cbn [trace bind];
  constructor;
  [ cbn [forward_cmd_ok layers_of In]; auto 10
  | match goal with
    | |- context [h ?c ?w] => destruct (h c w) as [[? | ?] ?]
    end; [constructor |] ].

Lemma trace_forward_ok (blk : Inception) (x : T) (w : W) :
  Forall (forward_cmd_ok (Incep blk)) (trace h (forward blk x) w).
Proof.
  unfold forward, forward_p1, forward_p2, forward_p3, forward_p4,
    call_layer, nd_concat.
  do 8 step_trace.
  cbn [trace]. constructor.
Qed.

Lemma trace_forward_block_ok (b : Block) :
  forall (x : T) (w : W),
    Forall (forward_cmd_ok b) (trace h (forward_block b x) w).
Proof.
  induction b as [l | i | self children IH] using Block_nested_ind;
    intros x w.
  - cbn [forward_block call_layer trace]. constructor.
    + left. reflexivity.
    + destruct (h (LayerCall l x) w) as [[e | r] w1]; constructor.
  - apply trace_forward_ok.
  - revert x w. induction IH as [| b bs Hb _ IHbs]; intros x w.
    + constructor.
    + rewrite forward_block_cons, trace_bind. apply Forall_app. split.
      * eapply Forall_impl; [| apply Hb].
        intros c. apply forward_cmd_ok_head.
      * destruct (run h (forward_block b x) w) as [[e | y] w1];
          [constructor |].
        eapply Forall_impl; [| apply IHbs].
        intros c. apply forward_cmd_ok_tail.
Qed.


End ForwardCommands.

(** ** The shape-printing loop *)

Lemma printed_app {T Obj : Type} (a b : list (cmd T Obj)) :
  printed (a ++ b) = printed a ++ printed b.
Proof. unfold printed. apply flat_map_app. Qed.

Section LoopFacts.

Context {T Obj W E : Type}.
Variable h : @handler T Obj W E.
Variable name_of : Block -> string.
Variable shape_of : T -> list nat.
Hypothesis Hpr : printing_transparent h name_of shape_of.

Lemma run_print_shape (layer : Block) (X : T) (w : W) :
  run h (print_shape layer X) w = (inr tt, w).
Proof.
  destruct Hpr as (Hn & Hs & Hp).
  unfold print_shape, attr_name, attr_shape, print.
  cbn [bind run]. rewrite Hn. cbn [bind run]. rewrite Hs.
  cbn [bind run]. rewrite Hp. reflexivity.
Qed.

Lemma printed_print_shape (layer : Block) (X : T) (w : W) :
  printed (trace h (print_shape layer X) w)
  = [(name_of layer, output_shape, shape_of X)].
Proof.
  destruct Hpr as (Hn & Hs & Hp).
  unfold print_shape, attr_name, attr_shape, print.
  cbn [bind trace]. rewrite Hn. cbn [bind trace]. rewrite Hs.
  cbn [bind trace]. rewrite Hp. reflexivity.
Qed.

(** After the loop [X] is what calling the Sequential itself returns. *)
Lemma run_shape_loop (self : ident) (layers : list Block) :
  forall (X : T) (w : W),
    run h (shape_loop layers X) w
    = run h (forward_block (Sequential self layers) X) w.
Proof.
  induction layers as [| layer rest IH]; intros X w.
  - reflexivity.
  - rewrite forward_block_cons. cbn [shape_loop].
    rewrite !run_bind.
    destruct (run h (forward_block layer X) w) as [[e | X'] w1];
      [reflexivity |].
    rewrite run_bind, run_print_shape. apply IH.
Qed.

Lemma printed_shape_loop (layers : list Block) :
  forall (X : T) (w : W),
    printed (trace h (shape_loop layers X) w)
    = loop_lines h name_of shape_of layers X w.
Proof.
  induction layers as [| layer rest IH]; intros X w.
  - reflexivity.
  - cbn [shape_loop loop_lines].
    rewrite trace_bind, printed_app.
    rewrite (printed_of_forward_cmds (trace_forward_block_ok h layer X w)).
    destruct (run h (forward_block layer X) w) as [[e | X'] w1];
      [reflexivity |].
    rewrite trace_bind, printed_app, printed_print_shape, run_print_shape.
    cbn [app]. f_equal. apply IH.
Qed.

End LoopFacts.

(** C5.  The shape-printing cell first asks the framework for a tensor of
    shape (1, 1, 96, 96) and initialises [net], then loops over the six
    children of [net] in order.  Provided reading a name or a shape and
    printing do not disturb the framework: [X] after the loop is what
    [net] itself returns on the initial tensor, and the lines printed are,
    layer by layer, the layer's name with the shape of that layer's output,
    each layer having received the output of the one before it. *)
Theorem shape_cell_prints_each_layer :
  forall (T Obj W E : Type) (h : @handler T Obj W E)
         (name_of : Block -> string) (shape_of : T -> list nat),
    printing_transparent h name_of shape_of ->
    forall w : W,
      children_of net = [b1; b2; b3; b4; b5; Prim (LDense "net[5]" 10)] /\
      shape_cell (T := T) (Obj := Obj) =
        Do (RandomUniform [1; 1; 96; 96]) (fun X =>
        Do (Initialize net false None None) (fun _ =>
        shape_loop (children_of net) X)) /\
      run h shape_cell w =
        run h (X <- nd_random_uniform [1; 1; 96; 96] ;;
               net_initialize net false None None ;;;
               forward_block net X) w /\
      printed (trace h shape_cell w) =
        match run h (X <- nd_random_uniform [1; 1; 96; 96] ;;
                     net_initialize net false None None ;;;
                     Ret X) w with
        | (inr X, w0) => loop_lines h name_of shape_of (children_of net) X w0
        | (inl _, _) => []
        end.
Proof.
  intros T Obj W E h name_of shape_of Hpr w.
  split; [reflexivity | split; [reflexivity | split]].
  - unfold shape_cell, nd_random_uniform, net_initialize.
    cbn [bind run].
    destruct (h (RandomUniform [1; 1; 96; 96]) w) as [[e | X] w1];
      [reflexivity |].
    destruct (h (Initialize net false None None) w1) as [[e | u] w2];
      [reflexivity |].
    apply (run_shape_loop Hpr "net").
  - unfold shape_cell, nd_random_uniform, net_initialize.
    cbn [bind run trace].
    unfold printed at 1. cbn [flat_map app].
    destruct (h (RandomUniform [1; 1; 96; 96]) w) as [[e | X] w1];
      [reflexivity |].
    cbn [flat_map app].
    destruct (h (Initialize net false None None) w1) as [[e | u] w2];
      [reflexivity |].
    apply (printed_shape_loop Hpr).
Qed.

Lemma shape_cell_prints_each_layer_witness :
  printing_transparent shape_handler block_ident (fun x : shape => x) /\
  run shape_handler shape_cell 0 = (inr [1; 10], 2) /\
  printed (trace shape_handler shape_cell 0) =
    [ ("b1", output_shape, [1; 64; 24; 24]);
      ("b2", output_shape, [1; 192; 12; 12]);
      ("b3", output_shape, [1; 480; 6; 6]);
      ("b4", output_shape, [1; 832; 3; 3]);
      ("b5", output_shape, [1; 1024; 1; 1]);
      ("net[5]", output_shape, [1; 10]) ].
Proof.
  assert (Hpr : printing_transparent shape_handler block_ident
                  (fun x : shape => x))
    by (repeat split).
  destruct (@shape_cell_prints_each_layer
              shape unit nat string shape_handler block_ident
              (fun x : shape => x) Hpr 0) as (_ & _ & Hrun & Hlines).
  split; [exact Hpr | split].
  - rewrite Hrun. vm_compute. reflexivity.
  - rewrite Hlines. vm_compute. reflexivity.
Defined.

(** The commands of the training cell when every one of them succeeds. *)
Example training_cell_commands :
  trace shape_handler training_cell 0 =
  [ TryGpu; InitXavier; Initialize net true (Some tt) (Some tt);
    CollectParams net;
    NewTrainer tt "sgd" [("learning_rate", (1 # 10)%Q)];
    LoadDataFashionMnist 128 (Some 96);
    TrainCh5 net tt tt 128 tt tt 5 ].
Proof. reflexivity. Qed.

(** ** Shapes through the stages of the network *)

Lemma run_prim_shape (l : Layer) (x : shape) (k : nat) :
  run shape_handler (forward_block (Prim l) x) k = (shape_layer l x, k).
Proof.
  cbn [forward_block].
  apply (run_call_layer_ro _ _ _ shape_handler_read_only).
Qed.

Lemma run_seq_cons_shape (self : ident) (b : Block) (bs : list Block)
    (x : shape) (k : nat) :
  run shape_handler (forward_block (Sequential self (b :: bs)) x) k =
  match run shape_handler (forward_block b x) k with
  | (inl e, k') => (inl e, k')
  | (inr y, k') => run shape_handler (forward_block (Sequential self bs) y) k'
  end.
Proof. rewrite forward_block_cons. apply run_bind. Qed.

(** A window of size [2p + 1] with padding [p] and stride 2 halves a
    non-empty side, rounding up. *)
Lemma window_out_halves (n k p : nat) :
  k = 2 * p + 1 -> 1 <= n -> window_out n k 2 p = Some ((n + 1) / 2).
Proof.
  intros -> Hn. unfold window_out.
  replace (2 =? 0) with false by reflexivity.
  replace (n + 2 * p <? 2 * p + 1) with false
    by (symmetry; apply Nat.ltb_ge; lia).
  cbn [orb]. f_equal.
  replace (n + 2 * p - (2 * p + 1)) with (n - 1) by lia.
  rewrite <- (Nat.div_add (n - 1) 1 2) by lia. f_equal. lia.
Qed.

(** A window of size [2p + 1] with padding [p] rejects an empty side, at any
    stride. *)
Lemma window_out_nonempty (n k s p m : nat) :
  k = 2 * p + 1 -> window_out n k s p = Some m -> 1 <= n.
Proof.
  intros -> H. unfold window_out in H.
  destruct (n + 2 * p <? 2 * p + 1) eqn:Hlt.
  - rewrite orb_true_r in H. discriminate.
  - apply Nat.ltb_ge in Hlt. lia.
Qed.

Lemma half_up_pos (n : nat) : 1 <= n -> 1 <= (n + 1) / 2.
Proof. intros Hn. apply Nat.div_str_pos. lia. Qed.

Lemma quarter_up (n : nat) : ((n + 1) / 2 + 1) / 2 = (n + 3) / 4.
Proof.
  replace ((n + 1) / 2 + 1) with ((n + 1 + 1 * 2) / 2)
    by (rewrite Nat.div_add by lia; reflexivity).
  rewrite Nat.Div0.div_div. f_equal. lia.
Qed.

Lemma shape_conv_halves (self : ident) (ch k p n c hh ww : nat) :
  k = 2 * p + 1 -> 1 <= hh -> 1 <= ww ->
  shape_layer (nn_Conv2D_full self ch k 2 p) [n; c; hh; ww]
  = inr [n; ch; (hh + 1) / 2; (ww + 1) / 2].
Proof.
  intros Hk Hh Hw. unfold shape_layer, nn_Conv2D_full.
  cbn [kernel_size strides padding channels].
  rewrite !window_out_halves by assumption. reflexivity.
Qed.

Lemma shape_pool_halves (self : ident) (k p n c hh ww : nat) :
  k = 2 * p + 1 -> 1 <= hh -> 1 <= ww ->
  shape_layer (nn_MaxPool2D self k 2 p) [n; c; hh; ww]
  = inr [n; c; (hh + 1) / 2; (ww + 1) / 2].
Proof.
  intros Hk Hh Hw. unfold shape_layer, nn_MaxPool2D.
  cbn [pool_size pool_strides pool_padding].
  rewrite !window_out_halves by assumption. reflexivity.
Qed.

(** A convolution with kernel [2p + 1] and padding [p] only accepts a 4-D
    input with non-empty height and width. *)
Lemma shape_conv_accepts (cv : Conv2D) (x y : shape) :
  kernel_size cv = 2 * padding cv + 1 ->
  shape_layer (LConv2D cv) x = inr y ->
  exists n c hh ww, x = [n; c; hh; ww] /\ 1 <= hh /\ 1 <= ww.
Proof.
  intros Hk. unfold shape_layer.
  destruct x as [| n [| c [| hh [| ww [| ? ?]]]]]; try discriminate.
  destruct (window_out hh (kernel_size cv) (strides cv) (padding cv))
    as [h' |] eqn:Hh; [| discriminate].
  destruct (window_out ww (kernel_size cv) (strides cv) (padding cv))
    as [w' |] eqn:Hw; [| discriminate].
  intros _. exists n, c, hh, ww. repeat split.
  - eapply window_out_nonempty; eassumption.
  - eapply window_out_nonempty; eassumption.
Qed.

Lemma run_incep_shape (self : ident) (c1 : nat) (c2 c3 : nat * nat)
    (c4 n c hh ww k : nat) :
  1 <= hh -> 1 <= ww ->
  run shape_handler
      (forward_block (Incep (Inception_init self c1 c2 c3 c4)) [n; c; hh; ww])
      k
  = (inr [n; c1 + snd c2 + snd c3 + c4; hh; ww], k).
Proof. intros Hh Hw. cbn [forward_block]. apply forward_shape; assumption. Qed.

Ltac side_nonempty :=
  solve [ assumption | reflexivity
        | apply half_up_pos; side_nonempty ].

(** One child of a Sequential under the shape rules. *)
Ltac stage_step :=
  rewrite run_seq_cons_shape;
  first
    [ rewrite run_incep_shape by side_nonempty
    | rewrite run_prim_shape;
      first [ rewrite shape_conv_halves by side_nonempty
            | rewrite shape_pool_halves by side_nonempty
            | change (nn_Conv2D_relu ?s ?ch 1)
                with (nn_Conv2D_pad_relu s ch 1 0);
              rewrite shape_conv_same by side_nonempty
            | rewrite shape_conv_same by side_nonempty
            | cbn [shape_layer] ] ];
  cbv beta iota.

Lemma b1_on_shape (n c hh ww k : nat) :
  1 <= hh -> 1 <= ww ->
  run shape_handler (forward_block b1 [n; c; hh; ww]) k
  = (inr [n; 64; (hh + 3) / 4; (ww + 3) / 4], k).
Proof.
  intros Hh Hw. unfold b1, add, nn_Sequential. cbn [app].
  do 2 stage_step. cbn [forward_block run snd fst].
  rewrite !quarter_up. reflexivity.
Qed.

Lemma b2_on_shape (n c hh ww k : nat) :
  1 <= hh -> 1 <= ww ->
  run shape_handler (forward_block b2 [n; c; hh; ww]) k
  = (inr [n; 192; (hh + 1) / 2; (ww + 1) / 2], k).
Proof.
  intros Hh Hw. unfold b2, add, nn_Sequential. cbn [app].
  do 3 stage_step. reflexivity.
Qed.

Lemma b3_on_shape (n c hh ww k : nat) :
  1 <= hh -> 1 <= ww ->
  run shape_handler (forward_block b3 [n; c; hh; ww]) k
  = (inr [n; 480; (hh + 1) / 2; (ww + 1) / 2], k).
Proof.
  intros Hh Hw. unfold b3, add, nn_Sequential. cbn [app].
  do 3 stage_step. reflexivity.
Qed.

Lemma b4_on_shape (n c hh ww k : nat) :
  1 <= hh -> 1 <= ww ->
  run shape_handler (forward_block b4 [n; c; hh; ww]) k
  = (inr [n; 832; (hh + 1) / 2; (ww + 1) / 2], k).
Proof.
  intros Hh Hw. unfold b4, add, nn_Sequential. cbn [app].
  do 6 stage_step. reflexivity.
Qed.

Lemma b5_on_shape (n c hh ww k : nat) :
  1 <= hh -> 1 <= ww ->
  run shape_handler (forward_block b5 [n; c; hh; ww]) k
  = (inr [n; 1024; 1; 1], k).
Proof.
  intros Hh Hw. unfold b5, add, nn_Sequential. cbn [app].
  do 3 stage_step. reflexivity.
Qed.

(** What a stage accepts under the shape rules. *)
Lemma first_child_ran (self : ident) (b : Block) (bs : list Block)
    (x y : shape) (k k' : nat) :
  run shape_handler (forward_block (Sequential self (b :: bs)) x) k
  = (inr y, k') ->
  exists z k1, run shape_handler (forward_block b x) k = (inr z, k1).
Proof.
  rewrite run_seq_cons_shape.
  destruct (run shape_handler (forward_block b x) k) as [[e | z] k1];
    [discriminate |].
  intros _. exists z, k1. reflexivity.
Qed.

Lemma conv_first_accepts (self : ident) (cv : Conv2D) (bs : list Block)
    (x y : shape) (k k' : nat) :
  kernel_size cv = 2 * padding cv + 1 ->
  run shape_handler
      (forward_block (Sequential self (Prim (LConv2D cv) :: bs)) x) k
  = (inr y, k') ->
  exists n c hh ww, x = [n; c; hh; ww] /\ 1 <= hh /\ 1 <= ww.
Proof.
  intros Hk Hrun. apply first_child_ran in Hrun.
  destruct Hrun as (z & k1 & Hz).
  rewrite run_prim_shape in Hz.
  apply (shape_conv_accepts cv x (y := z)); [exact Hk | congruence].
Qed.

Lemma incep_first_accepts (self self' : ident) (c1 : nat) (c2 c3 : nat * nat)
    (c4 : nat) (bs : list Block) (x y : shape) (k k' : nat) :
  run shape_handler
      (forward_block
         (Sequential self (Incep (Inception_init self' c1 c2 c3 c4) :: bs)) x)
      k
  = (inr y, k') ->
  exists n c hh ww, x = [n; c; hh; ww] /\ 1 <= hh /\ 1 <= ww.
Proof.
  intros Hrun. apply first_child_ran in Hrun.
  destruct Hrun as (z & k1 & Hz). cbn [forward_block] in Hz.
  apply forward_accepts_4d in Hz.
  destruct Hz as (n & c & hh & ww & Hx & Hh & Hw & _).
  exists n, c, hh, ww. repeat split; assumption.
Qed.

(** *** Any block, any framework that obeys the shape rules *)

Section BlockShapes.

Context {T Obj W E : Type}.
Variable h : @handler T Obj W E.
Variable shape_of : T -> shape.
Hypothesis Hsh : obeys_shape_rules h shape_of.

Lemma forward_block_shape_sim (b : Block) :
  forall (x y : T) (w w' : W) (k : nat),
    run h (forward_block b x) w = (inr y, w') ->
    run shape_handler (forward_block b (shape_of x)) k
    = (inr (shape_of y), k).
Proof.
  induction b as [l | i | self children IH] using Block_nested_ind;
    intros x y w w' k Hrun.
  - rewrite run_prim_shape. cbn [forward_block] in Hrun.
    rewrite (call_layer_shape Hsh _ _ _ Hrun). reflexivity.
  - cbn [forward_block] in *. eapply forward_shape_sim; eassumption.
  - revert x w Hrun. induction IH as [| b bs Hb _ IHbs]; intros x w Hrun.
    + cbn [forward_block run] in *. inversion Hrun; subst. reflexivity.
    + rewrite forward_block_cons in Hrun. apply run_bind_ok in Hrun.
      destruct Hrun as (z & w1 & Hz & Hrest).
      rewrite run_seq_cons_shape, (Hb _ _ _ _ k Hz).
      eapply IHbs, Hrest.
Qed.

End BlockShapes.

(** From the shape rules to any framework that obeys them. *)
Lemma stage_general (b : Block) (out : nat -> nat -> nat -> nat -> shape) :
  (forall x y k k',
      run shape_handler (forward_block b x) k = (inr y, k') ->
      exists n c hh ww, x = [n; c; hh; ww] /\ 1 <= hh /\ 1 <= ww) ->
  (forall n c hh ww k,
      1 <= hh -> 1 <= ww ->
      run shape_handler (forward_block b [n; c; hh; ww]) k
      = (inr (out n c hh ww), k)) ->
  forall (T Obj W E : Type) (h : @handler T Obj W E) (shape_of : T -> shape),
    obeys_shape_rules h shape_of ->
    forall x y w w',
      run h (forward_block b x) w = (inr y, w') ->
      exists n c hh ww,
        shape_of x = [n; c; hh; ww] /\ 1 <= hh /\ 1 <= ww /\
        shape_of y = out n c hh ww.
Proof.
  intros Hacc Hmain T Obj W E h shape_of Hsh x y w w' Hrun.
  apply (@forward_block_shape_sim _ _ _ _ h shape_of Hsh b x y w w' 0) in Hrun.
  destruct (Hacc _ _ _ _ Hrun) as (n & c & hh & ww & Hx & Hh & Hw).
  exists n, c, hh, ww. rewrite Hx in Hrun.
  rewrite Hmain in Hrun by assumption.
  inversion Hrun. repeat split; assumption || reflexivity.
Qed.

Lemma quarter_up_pos (n : nat) : 1 <= n -> 1 <= (n + 3) / 4.
Proof. intros Hn. apply Nat.div_str_pos. lia. Qed.

Lemma net_on_shape (n c hh ww k : nat) :
  1 <= hh -> 1 <= ww ->
  run shape_handler (forward_block net [n; c; hh; ww]) k = (inr [n; 10], k).
Proof.
  intros Hh Hw. unfold net, add, nn_Sequential. cbn [app].
  pose proof (quarter_up_pos Hh) as Hh1.
  pose proof (quarter_up_pos Hw) as Hw1.
  pose proof (half_up_pos Hh1) as Hh2.
  pose proof (half_up_pos Hw1) as Hw2.
  pose proof (half_up_pos Hh2) as Hh3.
  pose proof (half_up_pos Hw2) as Hw3.
  rewrite run_seq_cons_shape, b1_on_shape by assumption. cbv beta iota.
  rewrite run_seq_cons_shape, b2_on_shape by assumption. cbv beta iota.
  rewrite run_seq_cons_shape, b3_on_shape by assumption. cbv beta iota.
  rewrite run_seq_cons_shape, b4_on_shape by assumption. cbv beta iota.
  rewrite run_seq_cons_shape, b5_on_shape by (apply half_up_pos; assumption).
  cbv beta iota.
  rewrite run_seq_cons_shape, run_prim_shape. reflexivity.
Qed.

Lemma net_accepts (x y : shape) (k k' : nat) :
  run shape_handler (forward_block net x) k = (inr y, k') ->
  exists n c hh ww, x = [n; c; hh; ww] /\ 1 <= hh /\ 1 <= ww.
Proof.
  intros Hrun. apply first_child_ran in Hrun.
  destruct Hrun as (z & k1 & Hz).
  eapply conv_first_accepts; [| exact Hz]. reflexivity.
Qed.

(** X1.  Against any framework that obeys the shape rules, the shape of what
    a block returns is computed by the rules from the shape of its input
    alone: it depends neither on the values in the tensor, nor on the
    weights, nor on the framework's state. *)
Theorem block_result_shape_follows_rules :
  forall (T Obj W E : Type) (h : @handler T Obj W E) (shape_of : T -> shape),
    obeys_shape_rules h shape_of ->
    forall (b : Block) (x y : T) (w w' : W) (k : nat),
      run h (forward_block b x) w = (inr y, w') ->
      run shape_handler (forward_block b (shape_of x)) k
      = (inr (shape_of y), k).
Proof.
  intros T Obj W E h shape_of Hsh b x y w w' k Hrun.
  eapply forward_block_shape_sim; eassumption.
Qed.

Lemma block_result_shape_follows_rules_witness :
  obeys_shape_rules shape_handler (fun s : shape => s) /\
  run shape_handler (forward_block b2 [2; 64; 24; 24]) 5
  = (inr [2; 192; 12; 12], 5).
Proof.
  split; [exact shape_handler_obeys |].
  apply (@block_result_shape_follows_rules
           shape unit nat string shape_handler (fun s : shape => s)
           shape_handler_obeys b2 [2; 64; 24; 24] [2; 192; 12; 12] 0 0 5).
  vm_compute. reflexivity.
Defined.

(** X2.  [b1] only accepts a 4-D input with non-empty height and width, and
    returns 64 channels with both sides divided by 4, rounding up (a stride-2
    7x7 convolution then a stride-2 3x3 pooling); under the shape rules
    every such input is accepted. *)
Theorem b1_quarters_the_sides :
  (forall (T Obj W E : Type) (h : @handler T Obj W E)
          (shape_of : T -> shape),
      obeys_shape_rules h shape_of ->
      forall x y w w',
        run h (forward_block b1 x) w = (inr y, w') ->
        exists n c hh ww,
          shape_of x = [n; c; hh; ww] /\ 1 <= hh /\ 1 <= ww /\
          shape_of y = [n; 64; (hh + 3) / 4; (ww + 3) / 4]) /\
  (forall n c hh ww k,
      run shape_handler (forward_block b1 [n; c; S hh; S ww]) k
      = (inr [n; 64; (S hh + 3) / 4; (S ww + 3) / 4], k)).
Proof.
  split.
  - apply (stage_general b1 (fun n _ hh ww => [n; 64; (hh + 3) / 4;
                                               (ww + 3) / 4])).
    + intros x y k k' Hrun.
      eapply conv_first_accepts; [| exact Hrun]. reflexivity.
    + intros. apply b1_on_shape; assumption.
  - intros. apply b1_on_shape; lia.
Qed.

Lemma b1_quarters_the_sides_witness :
  exists n c hh ww,
    [1; 1; 96; 96] = [n; c; hh; ww] /\ 1 <= hh /\ 1 <= ww /\
    [1; 64; 24; 24] = [n; 64; (hh + 3) / 4; (ww + 3) / 4].
Proof.
  apply (proj1 b1_quarters_the_sides
           shape unit nat string shape_handler (fun s : shape => s)
           shape_handler_obeys [1; 1; 96; 96] [1; 64; 24; 24] 0 0).
  vm_compute. reflexivity.
Defined.

(** X3.  [b2] only accepts a 4-D input with non-empty height and width, and
    returns 192 channels with both sides halved, rounding up; under the shape
    rules every such input is accepted. *)
Theorem b2_halves_the_sides :
  (forall (T Obj W E : Type) (h : @handler T Obj W E)
          (shape_of : T -> shape),
      obeys_shape_rules h shape_of ->
      forall x y w w',
        run h (forward_block b2 x) w = (inr y, w') ->
        exists n c hh ww,
          shape_of x = [n; c; hh; ww] /\ 1 <= hh /\ 1 <= ww /\
          shape_of y = [n; 192; (hh + 1) / 2; (ww + 1) / 2]) /\
  (forall n c hh ww k,
      run shape_handler (forward_block b2 [n; c; S hh; S ww]) k
      = (inr [n; 192; (S hh + 1) / 2; (S ww + 1) / 2], k)).
Proof.
  split.
  - apply (stage_general b2 (fun n _ hh ww => [n; 192; (hh + 1) / 2;
                                               (ww + 1) / 2])).
    + intros x y k k' Hrun.
      eapply conv_first_accepts; [| exact Hrun]. reflexivity.
    + intros. apply b2_on_shape; assumption.
  - intros. apply b2_on_shape; lia.
Qed.

Lemma b2_halves_the_sides_witness :
  exists n c hh ww,
    [1; 64; 24; 24] = [n; c; hh; ww] /\ 1 <= hh /\ 1 <= ww /\
    [1; 192; 12; 12] = [n; 192; (hh + 1) / 2; (ww + 1) / 2].
Proof.
  apply (proj1 b2_halves_the_sides
           shape unit nat string shape_handler (fun s : shape => s)
           shape_handler_obeys [1; 64; 24; 24] [1; 192; 12; 12] 0 0).
  vm_compute. reflexivity.
Defined.

(** X4.  [b3] only accepts a 4-D input with non-empty height and width, and
    returns 480 channels with both sides halved, rounding up: its two
    Inception blocks keep the sides, the final pooling halves them. *)
Theorem b3_halves_the_sides :
  (forall (T Obj W E : Type) (h : @handler T Obj W E)
          (shape_of : T -> shape),
      obeys_shape_rules h shape_of ->
      forall x y w w',
        run h (forward_block b3 x) w = (inr y, w') ->
        exists n c hh ww,
          shape_of x = [n; c; hh; ww] /\ 1 <= hh /\ 1 <= ww /\
          shape_of y = [n; 480; (hh + 1) / 2; (ww + 1) / 2]) /\
  (forall n c hh ww k,
      run shape_handler (forward_block b3 [n; c; S hh; S ww]) k
      = (inr [n; 480; (S hh + 1) / 2; (S ww + 1) / 2], k)).
Proof.
  split.
  - apply (stage_general b3 (fun n _ hh ww => [n; 480; (hh + 1) / 2;
                                               (ww + 1) / 2])).
    + intros x y k k' Hrun. eapply incep_first_accepts. exact Hrun.
    + intros. apply b3_on_shape; assumption.
  - intros. apply b3_on_shape; lia.
Qed.

Lemma b3_halves_the_sides_witness :
  exists n c hh ww,
    [1; 192; 12; 12] = [n; c; hh; ww] /\ 1 <= hh /\ 1 <= ww /\
    [1; 480; 6; 6] = [n; 480; (hh + 1) / 2; (ww + 1) / 2].
Proof.
  apply (proj1 b3_halves_the_sides
           shape unit nat string shape_handler (fun s : shape => s)
           shape_handler_obeys [1; 192; 12; 12] [1; 480; 6; 6] 0 0).
  vm_compute. reflexivity.
Defined.

(** X5.  [b4] only accepts a 4-D input with non-empty height and width, and
    returns 832 channels with both sides halved, rounding up: its five
    Inception blocks keep the sides, the final pooling halves them. *)
Theorem b4_halves_the_sides :
  (forall (T Obj W E : Type) (h : @handler T Obj W E)
          (shape_of : T -> shape),
      obeys_shape_rules h shape_of ->
      forall x y w w',
        run h (forward_block b4 x) w = (inr y, w') ->
        exists n c hh ww,
          shape_of x = [n; c; hh; ww] /\ 1 <= hh /\ 1 <= ww /\
          shape_of y = [n; 832; (hh + 1) / 2; (ww + 1) / 2]) /\
  (forall n c hh ww k,
      run shape_handler (forward_block b4 [n; c; S hh; S ww]) k
      = (inr [n; 832; (S hh + 1) / 2; (S ww + 1) / 2], k)).
Proof.
  split.
  - apply (stage_general b4 (fun n _ hh ww => [n; 832; (hh + 1) / 2;
                                               (ww + 1) / 2])).
    + intros x y k k' Hrun. eapply incep_first_accepts. exact Hrun.
    + intros. apply b4_on_shape; assumption.
  - intros. apply b4_on_shape; lia.
Qed.

Lemma b4_halves_the_sides_witness :
  exists n c hh ww,
    [1; 480; 6; 6] = [n; c; hh; ww] /\ 1 <= hh /\ 1 <= ww /\
    [1; 832; 3; 3] = [n; 832; (hh + 1) / 2; (ww + 1) / 2].
Proof.
  apply (proj1 b4_halves_the_sides
           shape unit nat string shape_handler (fun s : shape => s)
           shape_handler_obeys [1; 480; 6; 6] [1; 832; 3; 3] 0 0).
  vm_compute. reflexivity.
Defined.

(** X6.  [b5] only accepts a 4-D input with non-empty height and width, and
    returns 1024 channels of height and width 1, whatever the sides of the
    input: the global average pooling leaves one value per channel. *)
Theorem b5_pools_to_one_value_per_channel :
  (forall (T Obj W E : Type) (h : @handler T Obj W E)
          (shape_of : T -> shape),
      obeys_shape_rules h shape_of ->
      forall x y w w',
        run h (forward_block b5 x) w = (inr y, w') ->
        exists n c hh ww,
          shape_of x = [n; c; hh; ww] /\ 1 <= hh /\ 1 <= ww /\
          shape_of y = [n; 1024; 1; 1]) /\
  (forall n c hh ww k,
      run shape_handler (forward_block b5 [n; c; S hh; S ww]) k
      = (inr [n; 1024; 1; 1], k)).
Proof.
  split.
  - apply (stage_general b5 (fun n _ _ _ => [n; 1024; 1; 1])).
    + intros x y k k' Hrun. eapply incep_first_accepts. exact Hrun.
    + intros. apply b5_on_shape; assumption.
  - intros. apply b5_on_shape; lia.
Qed.

Lemma b5_pools_to_one_value_per_channel_witness :
  exists n c hh ww,
    [1; 832; 3; 3] = [n; c; hh; ww] /\ 1 <= hh /\ 1 <= ww /\
    [1; 1024; 1; 1] = [n; 1024; 1; 1].
Proof.
  apply (proj1 b5_pools_to_one_value_per_channel
           shape unit nat string shape_handler (fun s : shape => s)
           shape_handler_obeys [1; 832; 3; 3] [1; 1024; 1; 1] 0 0).
  vm_compute. reflexivity.
Defined.

(** X7.  [net] works on images of any size: it only accepts a 4-D input with
    non-empty height and width, under the shape rules it accepts every such
    input whatever its number of channels, and it returns one row of 10
    values per element of the batch. *)
Theorem net_maps_any_image_to_ten_scores :
  (forall (T Obj W E : Type) (h : @handler T Obj W E)
          (shape_of : T -> shape),
      obeys_shape_rules h shape_of ->
      forall x y w w',
        run h (forward_block net x) w = (inr y, w') ->
        exists n c hh ww,
          shape_of x = [n; c; hh; ww] /\ 1 <= hh /\ 1 <= ww /\
          shape_of y = [n; 10]) /\
  (forall n c hh ww k,
      run shape_handler (forward_block net [n; c; S hh; S ww]) k
      = (inr [n; 10], k)).
Proof.
  split.
  - apply (stage_general net (fun n _ _ _ => [n; 10])).
    + apply net_accepts.
    + intros. apply net_on_shape; assumption.
  - intros. apply net_on_shape; lia.
Qed.

Lemma net_maps_any_image_to_ten_scores_witness :
  exists n c hh ww,
    [128; 1; 96; 96] = [n; c; hh; ww] /\ 1 <= hh /\ 1 <= ww /\
    [128; 10] = [n; 10].
Proof.
  apply (proj1 net_maps_any_image_to_ten_scores
           shape unit nat string shape_handler (fun s : shape => s)
           shape_handler_obeys [128; 1; 96; 96] [128; 10] 0 0).
  vm_compute. reflexivity.
Defined.

(** ** Which layers a call uses *)

Lemma called_layers_app {T Obj : Type} (a b : list (cmd T Obj)) :
  called_layers (a ++ b) = called_layers a ++ called_layers b.
Proof. unfold called_layers. apply flat_map_app. Qed.

Section CalledLayers.

Context {T Obj W E : Type}.
Variable h : @handler T Obj W E.

Ltac split_answers :=
  repeat (cbn [trace run bind];
          match goal with
          | |- context [h ?c ?w] => destruct (h c w) as [[? | ?] ?]
          end).

Lemma called_layers_forward (blk : Inception) (x : T) (w : W) :
  (exists rest,
      layers_of (Incep blk)
      = called_layers (trace h (forward blk x) w) ++ rest) /\
  (forall y w',
      run h (forward blk x) w = (inr y, w') ->
      called_layers (trace h (forward blk x) w) = layers_of (Incep blk)).
Proof.
  unfold forward, forward_p1, forward_p2, forward_p3, forward_p4,
    call_layer, nd_concat.
  split_answers;
    (split;
     [ eexists; cbn [called_layers flat_map app layers_of]; reflexivity
     | intros y w' Hrun; first [discriminate | reflexivity] ]).
Qed.

Lemma called_layers_forward_block (b : Block) :
  forall (x : T) (w : W),
    (exists rest,
        layers_of b
        = called_layers (trace h (forward_block b x) w) ++ rest) /\
    (forall y w',
        run h (forward_block b x) w = (inr y, w') ->
        called_layers (trace h (forward_block b x) w) = layers_of b).
Proof.
  induction b as [l | i | self children IH] using Block_nested_ind;
    intros x w.
  - cbn [forward_block call_layer trace run layers_of].
    destruct (h (LayerCall l x) w) as [[e | r] w1];
      (split; [exists []; reflexivity | intros; reflexivity]).
  - apply called_layers_forward.
  - revert x w. induction IH as [| b bs Hb _ IHbs]; intros x w.
    + split; [exists []; reflexivity | intros; reflexivity].
    + rewrite forward_block_cons, trace_bind, run_bind, called_layers_app.
      cbn [layers_of flat_map].
      destruct (Hb x w) as [[rest Hpre] Hall].
      destruct (run h (forward_block b x) w) as [[e | z] w1].
      * split; [| discriminate].
        exists (rest ++ flat_map layers_of bs).
        cbn [called_layers flat_map]. rewrite app_nil_r, Hpre, <- app_assoc.
        reflexivity.
      * rewrite (Hall z w1 eq_refl).
        destruct (IHbs z w1) as [[rest' Hpre'] Hall'].
        cbn [layers_of] in Hpre', Hall'.
        split.
        -- exists rest'. rewrite Hpre' at 1. apply app_assoc.
        -- intros y w' Hrun. rewrite (Hall' y w' Hrun). reflexivity.
Qed.

End CalledLayers.

(** ** Order of the cells' commands *)

Section CellOrder.

Context {T Obj W E : Type}.
Variable h : @handler T Obj W E.

Lemma print_shape_calls_no_layer (layer : Block) (X : T) (w : W) :
  called_layers (trace h (print_shape layer X) w) = [].
Proof.
  unfold print_shape, attr_name, attr_shape, print.
  cbn [trace bind].
  destruct (h (AttrName layer) w) as [[e | name] w1]; [reflexivity |].
  cbn [trace bind].
  destruct (h (AttrShape X) w1) as [[e | sh] w2]; [reflexivity |].
  cbn [trace bind].
  destruct (h (Print name output_shape sh) w2) as [[e | u] w3]; reflexivity.
Qed.

Lemma in_called_layers (l : Layer) (x : T) (tr : list (cmd T Obj)) :
  In (LayerCall l x) tr -> In l (called_layers tr).
Proof.
  intros Hin. unfold called_layers. apply in_flat_map.
  exists (LayerCall l x). split; [exact Hin | left; reflexivity].
Qed.

Lemma shape_loop_calls_own_layers (layers : list Block) :
  forall (X : T) (w : W) (l : Layer),
    In l (called_layers (trace h (shape_loop layers X) w)) ->
    In l (flat_map layers_of layers).
Proof.
  induction layers as [| layer rest IH]; intros X w l Hin.
  - destruct Hin.
  - cbn [shape_loop] in Hin. rewrite trace_bind, called_layers_app in Hin.
    cbn [flat_map]. apply in_or_app.
    apply in_app_or in Hin. destruct Hin as [Hin | Hin].
    + left.
      destruct (called_layers_forward_block h layer X w) as [[tl Hpre] _].
      rewrite Hpre. apply in_or_app. left. exact Hin.
    + right.
      destruct (run h (forward_block layer X) w) as [[e | X'] w1];
        [destruct Hin |].
      rewrite trace_bind, called_layers_app, print_shape_calls_no_layer
        in Hin.
      cbn [app] in Hin.
      destruct (run h (print_shape layer X') w1) as [[e | u] w2];
        [destruct Hin |].
      eapply IH, Hin.
Qed.

End CellOrder.

(** X9.  In the shape-printing cell no layer is called before the initial
    tensor has been drawn and [net.initialize()] has returned, and every
    layer called is one of the layers of [net]. *)
Theorem shape_cell_initialises_before_any_layer :
  forall (T Obj W E : Type) (h : @handler T Obj W E) (w : W) (l : Layer)
         (x : T),
    In (LayerCall l x) (trace h shape_cell w) ->
    exists X0 w1 w2,
      h (RandomUniform [1; 1; 96; 96]) w = (inr X0, w1) /\
      h (Initialize net false None None) w1 = (inr tt, w2) /\
      In l (layers_of net).
Proof.
  intros T Obj W E h w l x Hin.
  unfold shape_cell, nd_random_uniform, net_initialize in Hin.
  cbn [trace bind] in Hin.
  destruct (h (RandomUniform [1; 1; 96; 96]) w) as [[e | X0] w1] eqn:H1.
  - destruct Hin as [Heq | []]. discriminate Heq.
  - destruct Hin as [Heq | Hin]; [discriminate Heq |].
    cbn [trace bind] in Hin.
    destruct (h (Initialize net false None None) w1) as [[e | u] w2] eqn:H2.
    + destruct Hin as [Heq | []]. discriminate Heq.
    + destruct Hin as [Heq | Hin]; [discriminate Heq |].
      apply in_called_layers in Hin.
      apply shape_loop_calls_own_layers in Hin.
      destruct u. exists X0, w1, w2.
      split; [reflexivity | split; [exact H2 | exact Hin]].
Qed.

Lemma shape_cell_initialises_before_any_layer_witness :
  exists X0 w1 w2,
    shape_handler (RandomUniform [1; 1; 96; 96]) 0 = (inr X0, w1) /\
    shape_handler (Initialize net false None None) w1 = (inr tt, w2) /\
    In (nn_Conv2D_full "b1[0]" 64 7 2 3) (layers_of net).
Proof.
  apply (@shape_cell_initialises_before_any_layer
           shape unit nat string shape_handler 0
           (nn_Conv2D_full "b1[0]" 64 7 2 3) [1; 1; 96; 96]).
  vm_compute. right. right. left. reflexivity.
Defined.

(** X10.  The training cell starts training only when everything before it
    has succeeded, and then on exactly what those steps returned: [net] is
    initialised (with [force_reinit], Xavier) on the context [try_gpu]
    returned, the trainer is built with ['sgd'] and learning rate 0.1 from
    the parameters of [net], the iterators come from the Fashion-MNIST
    loader with batch size 128 and resize 96, and training runs on that same
    context with batch size 128 for 5 epochs.  Conversely, when all these
    steps succeed, training is started. *)
Theorem training_starts_after_setup :
  forall (T Obj W E : Type) (h : @handler T Obj W E) (w : W)
         (b : Block) (train_iter test_iter : Obj) (bs : nat)
         (trainer ctx : Obj) (epochs : nat),
    In (TrainCh5 b train_iter test_iter bs trainer ctx epochs)
       (trace h training_cell w)
    <->
    exists xavier params w1 w2 w3 w4 w5 w6,
      h TryGpu w = (inr ctx, w1) /\
      h InitXavier w1 = (inr xavier, w2) /\
      h (Initialize net true (Some ctx) (Some xavier)) w2 = (inr tt, w3) /\
      h (CollectParams net) w3 = (inr params, w4) /\
      h (NewTrainer params "sgd" [("learning_rate", (1 # 10)%Q)]) w4
      = (inr trainer, w5) /\
      h (LoadDataFashionMnist 128 (Some 96)) w5
      = (inr (train_iter, test_iter), w6) /\
      b = net /\ bs = 128 /\ epochs = 5.
Proof.
  intros T Obj W E h w b train_iter test_iter bs trainer ctx epochs.
  unfold training_cell, d2l_try_gpu, init_Xavier, net_initialize,
    collect_params, gluon_Trainer, d2l_load_data_fashion_mnist,
    d2l_train_ch5, lr, batch_size, num_epochs.
  split.
  - intros Hin.
    cbn [trace bind] in Hin.
    match type of Hin with
    | context [h ?c ?w0] => destruct (h c w0) as [[e | ctx0] w1] eqn:H1
    end;
      cbn [In] in Hin; (destruct Hin as [Heq | Hin]; [discriminate Heq |]).
    1: destruct Hin.
    cbn [trace bind] in Hin.
    match type of Hin with
    | context [h ?c ?w0] => destruct (h c w0) as [[e | xav] w2] eqn:H2
    end;
      cbn [In] in Hin; (destruct Hin as [Heq | Hin]; [discriminate Heq |]).
    1: destruct Hin.
    cbn [trace bind] in Hin.
    match type of Hin with
    | context [h ?c ?w0] => destruct (h c w0) as [[e | u] w3] eqn:H3
    end;
      cbn [In] in Hin; (destruct Hin as [Heq | Hin]; [discriminate Heq |]).
    1: destruct Hin.
    cbn [trace bind] in Hin.
    match type of Hin with
    | context [h ?c ?w0] => destruct (h c w0) as [[e | params] w4] eqn:H4
    end;
      cbn [In] in Hin; (destruct Hin as [Heq | Hin]; [discriminate Heq |]).
    1: destruct Hin.
    cbn [trace bind] in Hin.
    match type of Hin with
    | context [h ?c ?w0] => destruct (h c w0) as [[e | tr] w5] eqn:H5
    end;
      cbn [In] in Hin; (destruct Hin as [Heq | Hin]; [discriminate Heq |]).
    1: destruct Hin.
    cbn [trace bind] in Hin.
    match type of Hin with
    | context [h ?c ?w0] => destruct (h c w0) as [[e | [ti te]] w6] eqn:H6
    end;
      cbn [In] in Hin; (destruct Hin as [Heq | Hin]; [discriminate Heq |]).
    1: destruct Hin.
    cbn [trace bind fst snd In] in Hin.
    destruct Hin as [Heq | Hin].
    + inversion Heq; subst. destruct u.
      exists xav, params, w1, w2, w3, w4, w5, w6.
      repeat split; assumption.
    + match type of Hin with
      | context [h ?c ?w0] => destruct (h c w0) as [[e | u'] w7]
      end; destruct Hin.
  - intros (xav & params & w1 & w2 & w3 & w4 & w5 & w6 &
            H1 & H2 & H3 & H4 & H5 & H6 & -> & -> & ->).
    cbn [trace bind].
    do 6 (match goal with
          | H : h _ _ = ?v |- context [h ?c ?w0] =>
              replace (h c w0) with v by (symmetry; exact H)
          end; right; cbn [trace bind]).
    cbn [fst snd]. left. reflexivity.
Qed.

Lemma training_starts_after_setup_witness :
  In (TrainCh5 net tt tt 128 tt tt 5) (trace shape_handler training_cell 0).
Proof.
  apply (proj2 (@training_starts_after_setup
                  shape unit nat string shape_handler 0
                  net tt tt 128 tt tt 5)).
  exists tt, tt, 0, 0, 1, 1, 1, 1. repeat split.
Defined.

(** Training is not started when no device context can be obtained. *)
Example no_training_without_initialisation :
  forall (h : @handler shape unit nat string) (w : nat) (e : string)
         (w' : nat),
    h TryGpu w = (inl e, w') ->
    trace h training_cell w = [TryGpu].
Proof.
  intros h w e w' H1. unfold training_cell, d2l_try_gpu.
  cbn [trace bind]. rewrite H1. reflexivity.
Qed.

(** X11.  With reading attributes and printing undisturbed, the
    shape-printing loop prints one line for every layer that returned and
    none for a layer that raised: never more lines than layers, and as many
    as layers exactly when the loop runs to its end. *)
Theorem one_line_per_finished_layer :
  forall (T Obj W E : Type) (h : @handler T Obj W E)
         (name_of : Block -> string) (shape_of : T -> list nat),
    printing_transparent h name_of shape_of ->
    forall (layers : list Block) (X : T) (w : W),
      List.length (printed (trace h (shape_loop layers X) w))
      <= List.length layers /\
      ((exists y w', run h (shape_loop layers X) w = (inr y, w')) <->
       List.length (printed (trace h (shape_loop layers X) w))
       = List.length layers).
Proof.
  intros T Obj W E h name_of shape_of Hpr layers.
  induction layers as [| layer rest IH]; intros X w.
  - split; [apply Nat.le_refl |].
    split; [reflexivity | intros _; exists X, w; reflexivity].
  - rewrite (printed_shape_loop Hpr).
    cbn [loop_lines shape_loop]. rewrite run_bind.
    destruct (run h (forward_block layer X) w) as [[e | X'] w1].
    + cbn [List.length]. split; [lia |].
      split; [intros (y & w' & Hy); discriminate | discriminate].
    + rewrite run_bind, (run_print_shape Hpr).
      destruct (IH X' w1) as [Hle Hiff].
      rewrite (printed_shape_loop Hpr) in Hle, Hiff.
      cbn [List.length]. split; [lia |].
      split.
      * intros Hok. f_equal. apply Hiff, Hok.
      * intros Hlen. apply Hiff. lia.
Qed.

Lemma one_line_per_finished_layer_witness :
  printing_transparent shape_handler block_ident (fun x : shape => x) /\
  List.length
    (printed (trace shape_handler
                    (shape_loop (children_of net) [1; 1; 96; 96]) 0))
  <= List.length (children_of net).
Proof.
  assert (Hpr : printing_transparent shape_handler block_ident
                  (fun x : shape => x))
    by (repeat split).
  split; [exact Hpr |].
  apply (@one_line_per_finished_layer
           shape unit nat string shape_handler block_ident
           (fun x : shape => x) Hpr (children_of net) [1; 1; 96; 96] 0).
Defined.

(** ** Failures *)

Lemma call_layer_handler_free {T Obj : Type} (l : Layer) (x : T) :
  handler_free (call_layer (Obj := Obj) l x).
Proof. intros r. exact I. Qed.

Lemma forward_handler_free {T Obj : Type} (blk : Inception) (x : T) :
  handler_free (forward (Obj := Obj) blk x).
Proof.
  unfold forward, forward_p1, forward_p2, forward_p3, forward_p4,
    call_layer, nd_concat.
  cbn [bind handler_free]. intros; exact I.
Qed.

Lemma forward_block_handler_free {T Obj : Type} (b : Block) :
  forall x : T, handler_free (forward_block (Obj := Obj) b x).
Proof.
  induction b as [l | i | self children IH] using Block_nested_ind;
    intros x.
  - apply call_layer_handler_free.
  - apply forward_handler_free.
  - revert x. induction IH as [| b bs Hb _ IHbs]; intros x.
    + exact I.
    + rewrite forward_block_cons. apply handler_free_bind.
      * apply Hb.
      * intros y. apply IHbs.
Qed.

Lemma print_shape_handler_free {T Obj : Type} (layer : Block) (X : T) :
  handler_free (print_shape (Obj := Obj) layer X).
Proof.
  unfold print_shape, attr_name, attr_shape, print.
  cbn [bind handler_free]. intros; exact I.
Qed.

Lemma shape_loop_handler_free {T Obj : Type} (layers : list Block) :
  forall X : T, handler_free (shape_loop (Obj := Obj) layers X).
Proof.
  induction layers as [| layer rest IH]; intros X.
  - exact I.
  - cbn [shape_loop]. apply handler_free_bind.
    + apply forward_block_handler_free.
    + intros X'. apply handler_free_bind.
      * apply print_shape_handler_free.
      * intros _. apply IH.
Qed.

Lemma shape_cell_handler_free {T Obj : Type} :
  handler_free (@shape_cell T Obj).
Proof.
  unfold shape_cell, nd_random_uniform, net_initialize.
  cbn [bind handler_free]. intros X u. apply shape_loop_handler_free.
Qed.

Lemma training_cell_handler_free {T Obj : Type} :
  handler_free (@training_cell T Obj).
Proof.
  unfold training_cell, d2l_try_gpu, init_Xavier, net_initialize,
    collect_params, gluon_Trainer, d2l_load_data_fashion_mnist,
    d2l_train_ch5.
  cbn [bind handler_free]. intros; exact I.
Qed.

(** C6.  The notebook's code neither catches nor alters an exception of the
    framework.  [Inception.forward], a call of any block (so of [net]), the
    shape-printing cell and the training cell contain no [try]/[except],
    and against any framework: the run fails exactly when one of the
    commands it issued failed, then with that very exception and the state
    the command left, and the failing command is the last one the run issues
    (nothing is retried, nothing runs after it). *)
Theorem notebook_propagates_failures :
  forall (T Obj W E : Type) (h : @handler T Obj W E),
    (forall blk x,
        handler_free (forward (Obj := Obj) blk x) /\
        propagates_failures h (forward blk x)) /\
    (forall b x,
        handler_free (forward_block (Obj := Obj) b x) /\
        propagates_failures h (forward_block b x)) /\
    (handler_free (@shape_cell T Obj) /\ propagates_failures h shape_cell) /\
    (handler_free (@training_cell T Obj) /\
     propagates_failures h training_cell).
Proof.
  intros T Obj W E h.
  split; [| split; [| split]]; intros; (split; [| apply handler_free_propagates]).
  - apply forward_handler_free.
  - apply forward_handler_free.
  - apply forward_block_handler_free.
  - apply forward_block_handler_free.
  - apply shape_cell_handler_free.
  - apply shape_cell_handler_free.
  - apply training_cell_handler_free.
  - apply training_cell_handler_free.
Qed.

(** A failure of the framework seen through [forward]: a 2-D input is
    rejected by the first convolution, and that exception is the result. *)
Example forward_rejects_2d_input :
  run shape_handler
      (forward (Inception_init "b3[0]" 64 (96, 128) (16, 32) 32) [1; 192]) 0
  = (inl "expected a 4-D input", 0) /\
  trace shape_handler
      (forward (Inception_init "b3[0]" 64 (96, 128) (16, 32) 32) [1; 192]) 0
  = [LayerCall (nn_Conv2D_relu "b3[0].p1_1" 64 1) [1; 192]].
Proof. split; reflexivity. Qed.

(** The same call under [try]/[except] does not have the property: the
    exception of the convolution is swallowed and the input handed back. *)
Example guarded_call_swallows_the_failure :
  let guarded : prog shape unit shape :=
    TryExcept (call_layer (nn_Conv2D_relu "b3[0].p1_1" 64 1) [1; 192])
              (Ret [1; 192]) (fun y => Ret y) in
  run shape_handler guarded 0 = (inr [1; 192], 0) /\
  ~ propagates_failures shape_handler guarded.
Proof.
  split; [reflexivity |].
  intros Hprop.
  destruct (Hprop 0 "expected a 4-D input" 0) as [[_ Hback] _].
  assert (Hrun : run shape_handler
                   (TryExcept
                      (call_layer (nn_Conv2D_relu "b3[0].p1_1" 64 1) [1; 192])
                      (Ret [1; 192]) (fun y => Ret y)) 0
                 = (inl "expected a 4-D input", 0)).
  { apply Hback.
    exists (LayerCall (nn_Conv2D_relu "b3[0].p1_1" 64 1) [1; 192]), 0.
    split; [| reflexivity].
    apply issues_in_try. apply issues_now. }
  discriminate Hrun.
Qed.

(** ** Parameters, repeated calls and the input *)


Section StatePreserved.

Context {T Obj W E : Type}.
Variable h : @handler T Obj W E.

(** Whatever layer calls and concatenations preserve, a program made of
    them preserves. *)
Lemma only_layer_calls_preserve (R : W -> W -> Prop) :
  (forall w, R w w) ->
  (forall w1 w2 w3, R w1 w2 -> R w2 w3 -> R w1 w3) ->
  (forall l x w, R w (snd (h (LayerCall l x) w))) ->
  (forall xs dim w, R w (snd (h (NdConcat xs dim) w))) ->
  forall (A : Type) (p : prog T Obj A) (w : W),
    only_layer_calls p -> R w (snd (run h p w)).
Proof.
  intros Hrefl Htrans Hl Hc A p.
  induction p as [A a | A c k IH | A X body _ handler _ k _];
    intros w Hp; simpl in Hp.
  - apply Hrefl.
  - destruct c; try contradiction; cbn [run].
    + specialize (Hl l x w).
      destruct (h (LayerCall l x) w) as [[e | r] w1]; cbn [snd] in *;
        [exact Hl |].
      eapply Htrans; [exact Hl | apply IH, Hp].
    + specialize (Hc xs dim w).
      destruct (h (NdConcat xs dim) w) as [[e | r] w1]; cbn [snd] in *;
        [exact Hc |].
      eapply Htrans; [exact Hc | apply IH, Hp].
  - contradiction.
Qed.

End StatePreserved.

Section ParameterFacts.

Context {T Obj W E P : Type}.
Variable h : @handler T Obj W E.
Variable params : W -> Layer -> option P.
Variable layer_apply : Layer -> P -> T -> E + T.
Variable concat_apply : list T -> nat -> E + T.
Hypothesis Hk : keeps_parameters h params layer_apply concat_apply.

Lemma params_kept_refl w : params_kept params w w.
Proof. intros l p Hp. exact Hp. Qed.

Lemma params_kept_trans w1 w2 w3 :
  params_kept params w1 w2 -> params_kept params w2 w3 ->
  params_kept params w1 w3.
Proof. intros H12 H23 l p Hp. apply H23, H12, Hp. Qed.

Lemma only_layer_calls_keep_params {A : Type} (p : prog T Obj A) (w : W) :
  only_layer_calls p -> params_kept params w (snd (run h p w)).
Proof.
  destruct Hk as (_ & _ & Hl & _ & Hc).
  apply only_layer_calls_preserve.
  - apply params_kept_refl.
  - apply params_kept_trans.
  - exact Hl.
  - exact Hc.
Qed.

(** A layer whose parameters are set answers as its function does. *)
Lemma layer_call_when_set l x w p :
  params w l = Some p ->
  exists w', h (LayerCall l x) w = (layer_apply l p x, w') /\
             params_kept params w w'.
Proof.
  intros Hp. destruct Hk as (Hok & Herr & Hl & _ & _).
  pose proof (Hl l x w) as Hkept.
  destruct (h (LayerCall l x) w) as [[e | y] w'] eqn:Hc; cbn [snd] in Hkept;
    exists w'; (split; [| exact Hkept]).
  - rewrite (Herr l x w e w' p Hc Hp). reflexivity.
  - destruct (Hok l x w y w' Hc) as (q & Hq & Hy).
    rewrite (Hkept _ _ Hp) in Hq. inversion Hq; subst. rewrite Hy.
    reflexivity.
Qed.

Lemma run_call_layer_when_set l x w p :
  params w l = Some p ->
  exists w', run h (call_layer l x) w = (layer_apply l p x, w') /\
             params_kept params w w'.
Proof.
  intros Hp. destruct (@layer_call_when_set l x w p Hp) as (w' & Hc & Hkept).
  exists w'. split; [| exact Hkept].
  cbn [call_layer run]. rewrite Hc.
  destruct (layer_apply l p x); reflexivity.
Qed.

Lemma run_path_when_set l1 l2 x w p1 p2 :
  params w l1 = Some p1 -> params w l2 = Some p2 ->
  exists w', run h (t <- call_layer l1 x ;; call_layer l2 t) w
             = (and_then (layer_apply l1 p1) (layer_apply l2 p2) x, w') /\
             params_kept params w w'.
Proof.
  intros H1 H2.
  destruct (@run_call_layer_when_set l1 x w p1 H1) as (w1 & Hr1 & K1).
  rewrite run_bind, Hr1. unfold and_then.
  destruct (layer_apply l1 p1 x) as [e | t].
  - exists w1. split; [reflexivity | exact K1].
  - destruct (@run_call_layer_when_set l2 t w1 p2 (K1 _ _ H2))
      as (w2 & Hr2 & K2).
    exists w2. split; [exact Hr2 | eapply params_kept_trans; eassumption].
Qed.

(** With the seven layers set, [forward] is the plain function of their
    parameters and the input, whether it returns or raises. *)
Lemma run_forward_when_set (blk : Inception) x w q1 q21 q22 q31 q32 q41 q42 :
  params w (p1_1 blk) = Some q1 ->
  params w (p2_1 blk) = Some q21 -> params w (p2_2 blk) = Some q22 ->
  params w (p3_1 blk) = Some q31 -> params w (p3_2 blk) = Some q32 ->
  params w (p4_1 blk) = Some q41 -> params w (p4_2 blk) = Some q42 ->
  fst (run h (forward blk x) w) =
  plain_inception
    (layer_apply (p1_1 blk) q1)
    (and_then (layer_apply (p2_1 blk) q21) (layer_apply (p2_2 blk) q22))
    (and_then (layer_apply (p3_1 blk) q31) (layer_apply (p3_2 blk) q32))
    (and_then (layer_apply (p4_1 blk) q41) (layer_apply (p4_2 blk) q42))
    (fun xs => concat_apply xs 1) x.
Proof.
  intros H1 H21 H22 H31 H32 H41 H42.
  unfold forward, forward_p1, forward_p2, forward_p3, forward_p4,
    plain_inception.
  destruct (@run_call_layer_when_set (p1_1 blk) x w q1 H1)
    as (w1 & R1 & K1).
  rewrite run_bind, R1.
  destruct (layer_apply (p1_1 blk) q1 x) as [e | r1]; [reflexivity |].
  destruct (@run_path_when_set (p2_1 blk) (p2_2 blk) x w1 q21 q22
              (K1 _ _ H21) (K1 _ _ H22)) as (w2 & R2 & K2).
  rewrite run_bind, R2.
  destruct (and_then _ _ x) as [e | r2]; [reflexivity |].
  destruct (@run_path_when_set (p3_1 blk) (p3_2 blk) x w2 q31 q32
              (K2 _ _ (K1 _ _ H31)) (K2 _ _ (K1 _ _ H32)))
    as (w3 & R3 & K3).
  rewrite run_bind, R3.
  destruct (and_then _ _ x) as [e | r3]; [reflexivity |].
  destruct (@run_path_when_set (p4_1 blk) (p4_2 blk) x w3 q41 q42
              (K3 _ _ (K2 _ _ (K1 _ _ H41))) (K3 _ _ (K2 _ _ (K1 _ _ H42))))
    as (w4 & R4 & K4).
  rewrite run_bind, R4.
  destruct (and_then _ _ x) as [e | r4]; [reflexivity |].
  destruct Hk as (_ & _ & _ & Hcat & _).
  cbn [nd_concat run]. rewrite <- (Hcat [r1; r2; r3; r4] 1 w4).
  destruct (h (NdConcat [r1; r2; r3; r4] 1) w4) as [[e | y] w5]; reflexivity.
Qed.

(** After a call that returned, the layer that served it is set. *)
Lemma call_layer_sets l x w y w' :
  run h (call_layer l x) w = (inr y, w') ->
  exists p, params w' l = Some p /\ layer_apply l p x = inr y.
Proof.
  destruct Hk as (Hok & _). cbn [call_layer run].
  destruct (h (LayerCall l x) w) as [[e | r] w1] eqn:Hc; [discriminate |].
  intros Heq. inversion Heq; subst. eapply Hok, Hc.
Qed.

Lemma path_sets l1 l2 x w y w' :
  run h (t <- call_layer l1 x ;; call_layer l2 t) w = (inr y, w') ->
  exists p1 p2,
    params w' l1 = Some p1 /\ params w' l2 = Some p2 /\
    and_then (layer_apply l1 p1) (layer_apply l2 p2) x = inr y.
Proof.
  intros Hrun. rewrite run_bind in Hrun.
  destruct (run h (call_layer l1 x) w) as [[e | t] w1] eqn:H1;
    [discriminate |].
  destruct (@call_layer_sets _ _ _ _ _ H1) as (p1 & Hp1 & Ht).
  destruct (@call_layer_sets _ _ _ _ _ Hrun) as (p2 & Hp2 & Hy).
  exists p1, p2. repeat split.
  - pose proof (@only_layer_calls_keep_params _ (call_layer l2 t) w1
                  (fun _ => I)) as K.
    rewrite Hrun in K. apply K, Hp1.
  - exact Hp2.
  - unfold and_then. rewrite Ht. exact Hy.
Qed.

(** After a call of [forward] that returned, the seven layers are set and
    what it returned is the plain function of their parameters and the
    input. *)
Lemma forward_sets (blk : Inception) x w y w' :
  run h (forward blk x) w = (inr y, w') ->
  exists q1 q21 q22 q31 q32 q41 q42,
    params w' (p1_1 blk) = Some q1 /\
    params w' (p2_1 blk) = Some q21 /\ params w' (p2_2 blk) = Some q22 /\
    params w' (p3_1 blk) = Some q31 /\ params w' (p3_2 blk) = Some q32 /\
    params w' (p4_1 blk) = Some q41 /\ params w' (p4_2 blk) = Some q42 /\
    plain_inception
      (layer_apply (p1_1 blk) q1)
      (and_then (layer_apply (p2_1 blk) q21) (layer_apply (p2_2 blk) q22))
      (and_then (layer_apply (p3_1 blk) q31) (layer_apply (p3_2 blk) q32))
      (and_then (layer_apply (p4_1 blk) q41) (layer_apply (p4_2 blk) q42))
      (fun xs => concat_apply xs 1) x
    = inr y.
Proof.
  intros Hrun. unfold forward in Hrun.
  rewrite run_bind in Hrun.
  destruct (run h (forward_p1 blk x) w) as [[e | r1] w1] eqn:R1;
    [discriminate |].
  rewrite run_bind in Hrun.
  destruct (run h (forward_p2 blk x) w1) as [[e | r2] w2] eqn:R2;
    [discriminate |].
  rewrite run_bind in Hrun.
  destruct (run h (forward_p3 blk x) w2) as [[e | r3] w3] eqn:R3;
    [discriminate |].
  rewrite run_bind in Hrun.
  destruct (run h (forward_p4 blk x) w3) as [[e | r4] w4] eqn:R4;
    [discriminate |].
  destruct (@call_layer_sets _ _ _ _ _ R1) as (q1 & Hq1 & A1).
  destruct (@path_sets _ _ _ _ _ _ R2) as (q21 & q22 & Hq21 & Hq22 & A2).
  destruct (@path_sets _ _ _ _ _ _ R3) as (q31 & q32 & Hq31 & Hq32 & A3).
  destruct (@path_sets _ _ _ _ _ _ R4) as (q41 & q42 & Hq41 & Hq42 & A4).
  assert (K2 : params_kept params w1 w2).
  { pose proof (@only_layer_calls_keep_params _ (forward_p2 blk x) w1) as K.
    rewrite R2 in K. apply K. cbn. intros; exact I. }
  assert (K3 : params_kept params w2 w3).
  { pose proof (@only_layer_calls_keep_params _ (forward_p3 blk x) w2) as K.
    rewrite R3 in K. apply K. cbn. intros; exact I. }
  assert (K4 : params_kept params w3 w4).
  { pose proof (@only_layer_calls_keep_params _ (forward_p4 blk x) w3) as K.
    rewrite R4 in K. apply K. cbn. intros; exact I. }
  assert (K5 : params_kept params w4 w').
  { pose proof (@only_layer_calls_keep_params _
                  (nd_concat [r1; r2; r3; r4] 1) w4) as K.
    rewrite Hrun in K. apply K. cbn. intros; exact I. }
  exists q1, q21, q22, q31, q32, q41, q42.
  repeat split; auto.
  destruct Hk as (_ & _ & _ & Hcat & _).
  unfold plain_inception. rewrite A1, A2, A3, A4.
  rewrite <- (Hcat [r1; r2; r3; r4] 1 w4).
  cbn [nd_concat run] in Hrun.
  destruct (h (NdConcat [r1; r2; r3; r4] 1) w4) as [[e | r] w5];
    [discriminate |].
  inversion Hrun; subst. reflexivity.
Qed.

End ParameterFacts.

(** *** The framework with deferred initialisation keeps its parameters *)

Lemma lazy_handler_keeps_parameters :
  keeps_parameters lazy_handler lazy_params lazy_apply shape_concat.
Proof.
  unfold keeps_parameters. cbn [lazy_handler fst snd].
  split; [| split; [| split; [| split]]].
  - intros l x w y w'. unfold lazy_layer_call.
    destruct (lazy_params w l) as [fan_in |] eqn:Hp.
    + intros Heq. inversion Heq; subst. exists fan_in. split; assumption.
    + unfold lazy_params in Hp.
      destruct (has_weights l) eqn:Hw; [| discriminate].
      destruct (shape_layer l x) as [e | y0] eqn:Hs; [discriminate |].
      intros Heq. inversion Heq; subst.
      exists (in_features l x). split.
      * unfold lazy_params. rewrite Hw. cbn [lookup].
        rewrite String.eqb_refl. reflexivity.
      * unfold lazy_apply. rewrite Hs, Hw, Nat.eqb_refl. reflexivity.
  - intros l x w e w' p. unfold lazy_layer_call.
    intros Hc Hp. rewrite Hp in Hc. inversion Hc. reflexivity.
  - intros l x w l' p Hp'. unfold lazy_layer_call.
    destruct (lazy_params w l) as [fan_in |] eqn:Hp; [exact Hp' |].
    destruct (shape_layer l x) as [e | y0]; [exact Hp' |].
    cbn [snd]. unfold lazy_params in *.
    destruct (has_weights l); [| discriminate].
    destruct (has_weights l'); [| exact Hp'].
    cbn [lookup].
    destruct (String.eqb (layer_ident l') (layer_ident l)) eqn:Heq;
      [| exact Hp'].
    apply String.eqb_eq in Heq. rewrite Heq in Hp'. congruence.
  - intros. reflexivity.
  - intros xs dim w l p Hp. exact Hp.
Qed.


(** Its first call of a layer does change the state: it is not a framework
    that only reads. *)
Example lazy_handler_is_not_read_only : ~ layers_read_only lazy_handler.
Proof.
  intros [Hl _].
  specialize (Hl (nn_Conv2D_relu "b3[0].p1_1" 64 1) [1; 192; 12; 12] []).
  vm_compute in Hl. discriminate Hl.
Qed.

(** C7.  Refinement between [forward] and the plain function
    [plain_inception] (four sub-computations of the same input, results
    concatenated on axis 1), against any framework that keeps its
    parameters, whether or not they exist before the call: whenever
    [forward] on a constructed Inception instance returns, the seven layers
    hold parameters and the value returned is [plain_inception] of the
    layers' functions at these parameters, applied to the input; and when
    the seven layers hold parameters before the call, the result of
    [forward], value or exception, is [plain_inception] of the layers'
    functions at these parameters.  Nothing else in the state of the
    framework enters the result. *)
Theorem inception_is_a_plain_function :
  forall (T Obj W E P : Type) (h : @handler T Obj W E)
         (params : W -> Layer -> option P)
         (layer_apply : Layer -> P -> T -> E + T)
         (concat_apply : list T -> nat -> E + T),
    keeps_parameters h params layer_apply concat_apply ->
    forall (self : ident) (c1 : nat) (c2 c3 : nat * nat) (c4 : nat)
           (x : T) (w : W),
      let blk := Inception_init self c1 c2 c3 c4 in
      let plain q1 q21 q22 q31 q32 q41 q42 :=
        plain_inception
          (layer_apply (p1_1 blk) q1)
          (and_then (layer_apply (p2_1 blk) q21)
                    (layer_apply (p2_2 blk) q22))
          (and_then (layer_apply (p3_1 blk) q31)
                    (layer_apply (p3_2 blk) q32))
          (and_then (layer_apply (p4_1 blk) q41)
                    (layer_apply (p4_2 blk) q42))
          (fun xs => concat_apply xs 1) in
      (forall y w',
          run h (forward blk x) w = (inr y, w') ->
          exists q1 q21 q22 q31 q32 q41 q42,
            params w' (p1_1 blk) = Some q1 /\
            params w' (p2_1 blk) = Some q21 /\
            params w' (p2_2 blk) = Some q22 /\
            params w' (p3_1 blk) = Some q31 /\
            params w' (p3_2 blk) = Some q32 /\
            params w' (p4_1 blk) = Some q41 /\
            params w' (p4_2 blk) = Some q42 /\
            plain q1 q21 q22 q31 q32 q41 q42 x = inr y) /\
      (forall q1 q21 q22 q31 q32 q41 q42,
          params w (p1_1 blk) = Some q1 ->
          params w (p2_1 blk) = Some q21 ->
          params w (p2_2 blk) = Some q22 ->
          params w (p3_1 blk) = Some q31 ->
          params w (p3_2 blk) = Some q32 ->
          params w (p4_1 blk) = Some q41 ->
          params w (p4_2 blk) = Some q42 ->
          fst (run h (forward blk x) w)
          = plain q1 q21 q22 q31 q32 q41 q42 x).
Proof.
  intros T Obj W E P h params layer_apply concat_apply Hk
         self c1 c2 c3 c4 x w blk plain.
  split.
  - intros y w' Hrun. exact (forward_sets Hk blk x w Hrun).
  - intros q1 q21 q22 q31 q32 q41 q42 H1 H21 H22 H31 H32 H41 H42.
    exact (@run_forward_when_set _ _ _ _ _ h params layer_apply concat_apply
             Hk blk x w q1 q21 q22 q31 q32 q41 q42
             H1 H21 H22 H31 H32 H41 H42).
Qed.

(** The first call after initialisation, when no layer holds weights yet. *)
Lemma inception_is_a_plain_function_witness :
  keeps_parameters lazy_handler lazy_params lazy_apply shape_concat /\
  let blk := Inception_init "b3[0]" 64 (96, 128) (16, 32) 32 in
  lazy_params [] (p1_1 blk) = None /\
  exists q1 q21 q22 q31 q32 q41 q42,
    plain_inception
      (lazy_apply (p1_1 blk) q1)
      (and_then (lazy_apply (p2_1 blk) q21) (lazy_apply (p2_2 blk) q22))
      (and_then (lazy_apply (p3_1 blk) q31) (lazy_apply (p3_2 blk) q32))
      (and_then (lazy_apply (p4_1 blk) q41) (lazy_apply (p4_2 blk) q42))
      (fun xs => shape_concat xs 1) [1; 192; 12; 12]
    = inr [1; 256; 12; 12].
Proof.
  split; [exact lazy_handler_keeps_parameters |].
  split; [reflexivity |].
  destruct (proj1 (@inception_is_a_plain_function
                     shape unit (list (ident * nat)) string nat
                     lazy_handler lazy_params lazy_apply shape_concat
                     lazy_handler_keeps_parameters
                     "b3[0]" 64 (96, 128) (16, 32) 32 [1; 192; 12; 12] [])
                  [1; 256; 12; 12]
                  (snd (run lazy_handler
                            (forward
                               (Inception_init "b3[0]" 64 (96, 128) (16, 32)
                                               32)
                               [1; 192; 12; 12]) [])))
    as (q1 & q21 & q22 & q31 & q32 & q41 & q42 & _ & _ & _ & _ & _ & _ & _
        & Hplain).
  - vm_compute. reflexivity.
  - exists q1, q21, q22, q31, q32, q41, q42. exact Hplain.
Defined.



(** ** Hyperparameters reach the framework *)

Section TrainingCommands.

Context {T Obj W E : Type}.
Variable h : @handler T Obj W E.





End TrainingCommands.



(** ** Every layer once *)

Lemma distinctb_NoDup (l : list ident) : distinctb l = true -> NoDup l.
Proof.
  induction l as [| x r IH]; intros Hd; [constructor |].
  cbn [distinctb] in Hd. apply andb_true_iff in Hd. destruct Hd as [Hx Hr].
  constructor; [| apply IH, Hr].
  intros Hin. apply negb_true_iff in Hx.
  assert (Hex : existsb (String.eqb x) r = true).
  { apply existsb_exists. exists x. split; [exact Hin |].
    apply String.eqb_refl. }
  congruence.
Qed.

Lemma net_layers_distinct : NoDup (layers_of net).
Proof.
  apply (NoDup_map_inv layer_ident).
  apply distinctb_NoDup. vm_compute. reflexivity.
Qed.

(** X8.  The 72 layers of [net] are pairwise distinct objects.  Against any
    framework, the layers a call of a block uses are always an initial part
    of the block's layers, in the order they were built; when the block's
    layers are distinct, as those of [net] are, no layer is called twice;
    when the call returns, every layer has been called; and a command that
    raises is the last command of the call, so no layer is called after
    one that raised. *)
Theorem every_layer_is_called_once_in_order :
  NoDup (layers_of net) /\ List.length (layers_of net) = 72 /\
  forall (T Obj W E : Type) (h : @handler T Obj W E) (b : Block) (x : T)
         (w : W),
    (exists rest,
        layers_of b
        = called_layers (trace h (forward_block b x) w) ++ rest) /\
    (NoDup (layers_of b) ->
     NoDup (called_layers (trace h (forward_block b x) w))) /\
    (forall y w',
        run h (forward_block b x) w = (inr y, w') ->
        called_layers (trace h (forward_block b x) w) = layers_of b) /\
    (forall c w0 e w',
        issues h (forward_block b x) w c w0 ->
        h c w0 = (inl e, w') ->
        exists tr, trace h (forward_block b x) w = tr ++ [c]).
Proof.
  split; [exact net_layers_distinct | split; [reflexivity |]].
  intros T Obj W E h b x w.
  destruct (called_layers_forward_block h b x w) as [[rest Hpre] Hall].
  split; [exists rest; exact Hpre | split; [| split]].
  - intros Hnd. rewrite Hpre in Hnd.
    eapply NoDup_app_remove_r, Hnd.
  - exact Hall.
  - intros c w0 e w'.
    apply failing_command_is_last, forward_block_handler_free.
Qed.

Lemma every_layer_is_called_once_in_order_witness :
  NoDup (layers_of net) /\
  NoDup (called_layers
           (trace shape_handler (forward_block net [1; 1; 96; 96]) 0)) /\
  called_layers (trace shape_handler (forward_block net [1; 1; 96; 96]) 0)
  = layers_of net.
Proof.
  destruct every_layer_is_called_once_in_order as (Hnd & _ & Hall).
  destruct (Hall shape unit nat string shape_handler net [1; 1; 96; 96] 0)
    as (_ & Honce & Hfull & _).
  split; [exact Hnd | split].
  - apply Honce, Hnd.
  - apply (Hfull [1; 10] 0). vm_compute. reflexivity.
Defined.
